(** * Dumroo AI: query client, result views and the scope-enforcing core

    A shallow embedding of the JavaScript client (the API service layer
    [apis.js], the chat panel's [handleSend], the dashboard's grouped
    aggregates and the results table) together with a model of the
    query-resolution core that the specification describes.

    JavaScript numbers are IEEE-754 doubles and are embedded as Rocq's
    primitive floats; JSON data is an inductive type; an ordinary object
    used as a dictionary is an association list kept in the order in
    which [Object.keys]/[Object.entries] enumerate own properties. *)

From Stdlib Require Import ZArith NArith List String Ascii Bool Lia.
From Stdlib Require Import QArith DecimalString.
From Stdlib Require Import PrimFloat FloatOps SpecFloat Uint63.
From stdpp Require Import base gmap strings.
Import ListNotations.

Local Open Scope string_scope.
Local Open Scope list_scope.
Set Warnings "-register-all".

(* ================================================================= *)
(** ** JavaScript values and objects                                  *)
(* ================================================================= *)

Module Js.

(** Values that flow through the client: [undefined], and everything
    [JSON.parse] can produce.  [JObj] lists own properties in enumeration
    order.  [JBuiltin k] stands for the built-in object reached by reading
    the inherited member [k] of [Object.prototype] ([Object.prototype]
    itself for [k = "__proto__"]). *)
Inductive value : Type :=
| JUndefined
| JNull
| JBool (b : bool)
| JNum (x : float)
| JStr (s : string)
| JArr (items : list value)
| JObj (props : list (string * value))
| JBuiltin (name : string).

(** Library behaviour the program relies on but does not define. *)
Record Builtins : Type := {
  (** [String(v)] for a [v] that is not already a string *)
  toString : value -> string;
  (** [Number(v)] for strings, arrays and objects *)
  toNumber : value -> float;
  (** [String.prototype.toLowerCase] *)
  toLowerCase : string -> string;
  (** [String.prototype.localeCompare] *)
  localeCompare : string -> string -> float;
  (** [String.prototype.trim] *)
  trim : string -> string;
  (** message of the [TypeError] raised by a property read on
      [null] or [undefined] *)
  typeErrorMessage : string
}.

(** Abrupt or normal completion of an expression. *)
Inductive completion (A : Type) : Type :=
| Normal (a : A)
| Throw (e : value).
Arguments Normal {A} a.
Arguments Throw {A} e.

#[global] Instance completion_ret : MRet completion := fun A a => Normal a.
#[global] Instance completion_bind : MBind completion := fun A B k c =>
  match c with
  | Normal a => k a
  | Throw e => Throw e
  end.

(** ToBoolean. *)
Definition truthy (v : value) : bool :=
  match v with
  | JUndefined | JNull => false
  | JBool b => b
  | JNum x => negb (PrimFloat.eqb x 0 || PrimFloat.is_nan x)
  | JStr s => negb (String.eqb s "")
  | JArr _ | JObj _ | JBuiltin _ => true
  end.

(** [a || b] *)
Definition or_else (a b : value) : value := if truthy a then a else b.

Definition nullish (v : value) : bool :=
  match v with
  | JUndefined | JNull => true
  | _ => false
  end.

Section Conversions.
Variable env : Builtins.

Definition to_string (v : value) : string :=
  match v with
  | JStr s => s
  | _ => toString env v
  end.

Definition to_number (v : value) : float :=
  match v with
  | JNum x => x
  | JUndefined => nan
  | JNull => 0%float
  | JBool b => if b then 1%float else 0%float
  | _ => toNumber env v
  end.

(** [v + 1]: string concatenation when [v] is (or converts to) a string,
    numeric addition otherwise. *)
Definition plus_one (v : value) : value :=
  match v with
  | JStr s => JStr (s ++ "1")
  | JArr _ | JObj _ | JBuiltin _ => JStr (to_string v ++ "1")
  | _ => JNum (to_number v + 1)%float
  end.
End Conversions.

(** *** Own properties and the prototype *)

(** Property names every ordinary object inherits from [Object.prototype]. *)
Definition object_prototype_members : list string :=
  [ "constructor"; "hasOwnProperty"; "isPrototypeOf"; "propertyIsEnumerable";
    "toLocaleString"; "toString"; "valueOf"; "__proto__";
    "__defineGetter__"; "__defineSetter__"; "__lookupGetter__";
    "__lookupSetter__" ].

Definition inherited (k : string) : value :=
  if existsb (String.eqb k) object_prototype_members then JBuiltin k
  else JUndefined.

Fixpoint own {V : Type} (k : string) (m : list (string * V)) : option V :=
  match m with
  | [] => None
  | (k', v) :: m' => if String.eqb k k' then Some v else own k m'
  end.

(** [o[k]] on an ordinary object: the own property, else the inherited
    member. *)
Definition get_prop (o : list (string * value)) (k : string) : value :=
  match own k o with
  | Some v => v
  | None => inherited k
  end.

Definition TypeError (env : Builtins) : value :=
  JObj [("message", JStr (typeErrorMessage env))].

(** [v.k] for the names this program reads from replies and errors
    ([response], [data], [detail], [message], [error], [condition],
    [results], [count]): none of them is a member of the String, Number,
    Boolean, Array or Function prototypes, so on those receivers the read
    yields [undefined]; on [null] and [undefined] it raises. *)
Definition get (env : Builtins) (v : value) (k : string) : completion value :=
  match v with
  | JUndefined | JNull => Throw (TypeError env)
  | JObj o => Normal (get_prop o k)
  | _ => Normal JUndefined
  end.

(** [v?.k] *)
Definition get_optional (env : Builtins) (v : value) (k : string)
  : completion value :=
  if nullish v then Normal JUndefined else get env v k.

(** *** Enumeration order of own properties

    Own keys that are array indices (canonical decimal numerals below
    2^32 - 1) are enumerated first, in ascending numeric order; all other
    string keys follow in the order in which they were created. *)

Definition digit (c : ascii) : option N :=
  let n := N_of_ascii c in
  if ((48 <=? n) && (n <=? 57))%N then Some (n - 48)%N else None.

Fixpoint digits (s : string) (acc : N) : option N :=
  match s with
  | EmptyString => Some acc
  | String c s' =>
      match digit c with
      | Some d => digits s' (10 * acc + d)%N
      | None => None
      end
  end.

Definition array_index (k : string) : option N :=
  match k with
  | EmptyString => None
  | String c EmptyString => digit c
  | String c _ =>
      if Ascii.eqb c "0" then None
      else match digits k 0 with
           | Some n => if (n <? 2 ^ 32 - 1)%N then Some n else None
           | None => None
           end
  end.

Section Properties.
Context {V : Type}.

(** Place a new index key [k] (of numeric value [n]) among the index
    keys that open the list. *)
Fixpoint insert_index (n : N) (k : string) (v : V) (m : list (string * V))
  : list (string * V) :=
  match m with
  | [] => [(k, v)]
  | (k', v') :: m' =>
      match array_index k' with
      | Some n' =>
          if (n' <? n)%N then (k', v') :: insert_index n k v m'
          else (k, v) :: m
      | None => (k, v) :: m
      end
  end.

(** Create the own property [k]. *)
Definition define (k : string) (v : V) (m : list (string * V))
  : list (string * V) :=
  match array_index k with
  | Some n => insert_index n k v m
  | None => m ++ [(k, v)]
  end.

(** Overwrite the existing own property [k]; its position is kept. *)
Fixpoint overwrite (k : string) (v : V) (m : list (string * V))
  : list (string * V) :=
  match m with
  | [] => []
  | (k', v') :: m' =>
      if String.eqb k k' then (k', v) :: m'
      else (k', v') :: overwrite k v m'
  end.

(** [m[k] = v] for a key other than ["__proto__"]. *)
Definition assign (k : string) (v : V) (m : list (string * V))
  : list (string * V) :=
  match own k m with
  | Some _ => overwrite k v m
  | None => define k v m
  end.

(** [Object.keys(m)] *)
Definition keys (m : list (string * V)) : list string := map fst m.
End Properties.

(** *** [+(x).toFixed(1)]

    [toFixed(1)] picks the integer [n] for which [n / 10] is closest to
    the exact value of the double [|x|], the larger one on a tie, and
    prints [n / 10] with the sign of [x]; unary plus reads the decimal back
    as the nearest double.  A double of magnitude 2^49 or more has at most
    three fractional bits, so the nearest double to its one-decimal
    rendering is the double itself (from 10^21 on [toFixed] prints the
    number unrounded). *)

Definition tenths (x : float) : Z :=
  match Prim2SF (PrimFloat.abs x) with
  | S754_finite _ m e =>
      if (0 <=? e)%Z then (10 * Z.pos m * 2 ^ e)%Z
      else ((20 * Z.pos m + 2 ^ (- e)) / 2 ^ (1 - e))%Z
  | _ => 0%Z
  end.

Definition toFixed1 (x : float) : float :=
  if PrimFloat.is_nan x then nan
  else if PrimFloat.leb 0x1p49 (PrimFloat.abs x) then x
  else
    let q := (PrimFloat.of_uint63 (Uint63.of_Z (tenths x)) / 10)%float in
    if PrimFloat.ltb x 0 then (- q)%float else q.

(** *** [URLSearchParams] serialisation

    The application/x-www-form-urlencoded byte serialiser, on the UTF-8
    bytes of a string: letters, digits and [* - . _] stay, a space becomes
    [+], every other byte becomes [%XX] in upper-case hexadecimal. *)

Definition form_safe (c : ascii) : bool :=
  let n := N_of_ascii c in
  ((48 <=? n) && (n <=? 57) || (65 <=? n) && (n <=? 90)
   || (97 <=? n) && (n <=? 122)
   || (n =? 42) || (n =? 45) || (n =? 46) || (n =? 95))%N.

Definition hex_digit (n : N) : ascii :=
  if (n <? 10)%N then ascii_of_N (48 + n) else ascii_of_N (55 + n).

Fixpoint form_encode (s : string) : string :=
  match s with
  | EmptyString => EmptyString
  | String c s' =>
      if form_safe c then String c (form_encode s')
      else if (N_of_ascii c =? 32)%N then String "+" (form_encode s')
      else
        String "%"
          (String (hex_digit (N_of_ascii c / 16))
             (String (hex_digit (N_of_ascii c mod 16)) (form_encode s')))
  end.

End Js.

(* ================================================================= *)
(** ** The API service layer ([client/src/lib/apis.js])               *)
(* ================================================================= *)

Module Api.
Import Js.

(** The role part and the whole body of a [POST /query] request. *)
Record RolePayload : Type := { grade : value; class_name : value }.
Record QueryRequest : Type := {
  query : string;
  role : RolePayload;
  sessionId : string
}.

(** What axios hands to a rejection handler: the error's message and,
    when the server answered, the parsed body of that response
    ([error.response.data]). *)
Record AxiosError : Type := {
  message : string;
  response : option value
}.

(** Settlement of the underlying request, before the interceptors. *)
Inductive Reply : Type :=
| Fulfilled (data : value)
| Rejected (error : AxiosError).

Section Client.
Variable env : Builtins.
(** the network and the server behind it *)
Variable transport : QueryRequest -> Reply.

(** [handleError(error)]: throws on every path.  [now] is
    [new Date().toISOString()]. *)
Definition handleError (now : string) (error : AxiosError)
  : completion value :=
  let data :=
    match response error with
    | Some d => d
    | None => JUndefined
    end in
  if truthy data then Throw data
  else
    Throw (JObj [ ("error", or_else (JStr (message error)) (JStr "Network error"));
                  ("code", JStr "NETWORK_ERROR");
                  ("timestamp", JStr now) ]).

(** [await this.axiosInstance.post('/query', data)] followed by
    [.data]: the response interceptor passes a response through and
    sends a rejection to [handleError]. *)
Definition post (now : string) (data : QueryRequest) : completion value :=
  match transport data with
  | Fulfilled d => Normal d
  | Rejected e => handleError now e
  end.

(** The object built in the [catch] clause of [postQuery]. *)
Definition failure (error : value) (now : string) : value :=
  JObj [ ("error", error);
         ("condition", JStr "");
         ("results", JArr []);
         ("count", JNum 0);
         ("timestamp", JStr now) ].

(** The [catch] clause of [postQuery], entered with the thrown value. *)
Definition recover (t_catch : string) (error : value) : completion value :=
  r ← get env error "response";
  d ← get_optional env r "data";
  let errorData := or_else d (JObj []) in
  detail ← get env errorData "detail";
  if truthy detail then mret (failure detail t_catch)
  else
    m ← get env error "message";
    mret (failure (or_else m (JStr "Failed to process query")) t_catch).

(** [postQuery(data)].  [t_intercept] and [t_catch] are the instants read
    by [handleError] and by the [catch] clause. *)
Definition postQuery (t_intercept t_catch : string) (data : QueryRequest)
  : completion value :=
  match post t_intercept data with
  | Normal d => Normal d
  | Throw error => recover t_catch error
  end.

(** the network for GET requests, by path *)
Variable fetch : string -> Reply.

(** [await this.axiosInstance.get(path)] followed by [.data], through the
    same response interceptor. *)
Definition request_get (now : string) (path : string) : completion value :=
  match fetch path with
  | Fulfilled d => Normal d
  | Rejected e => handleError now e
  end.

(** [params.toString()] in [getStats]: [grade] is appended unless it is
    [undefined], [class_name] when [classId] is truthy. *)
Definition stats_query (grade classId : value) : string :=
  let params :=
    (match grade with
     | JUndefined => []
     | _ => [("grade", to_string env grade)]
     end)
    ++ (if truthy classId then [("class_name", to_string env classId)] else []) in
  String.concat "&"
    (map (fun p => (form_encode (fst p) ++ "=" ++ form_encode (snd p))%string)
         params).

(** The template literal passed to [get] in [getStats]. *)
Definition stats_path (grade classId : value) : string :=
  let qs := stats_query grade classId in
  ("/stats" ++ (if truthy (JStr qs) then "?" ++ qs else ""))%string.

(** The objects [getStats] and [getHealth] return. *)
Definition succeeded (data : value) (now : string) : value :=
  JObj [ ("data", data); ("status", JStr "success"); ("timestamp", JStr now) ].

Definition errored (error : value) (now : string) : value :=
  JObj [ ("error", error); ("status", JStr "error"); ("timestamp", JStr now) ].

(** The shared shape of [getStats] and [getHealth]: wrap the data, or
    report [error.error || fallback] from the [catch] clause. *)
Definition wrapped (fallback : string) (t_intercept t_done : string)
  (path : string) : completion value :=
  match request_get t_intercept path with
  | Normal d => Normal (succeeded d t_done)
  | Throw error =>
      e ← get env error "error";
      mret (errored (or_else e (JStr fallback)) t_done)
  end.

(** [getStats(grade, classId)] *)
Definition getStats (t_intercept t_done : string) (grade classId : value)
  : completion value :=
  wrapped "Failed to fetch statistics" t_intercept t_done
    (stats_path grade classId).

(** [getHealth()] *)
Definition getHealth (t_intercept t_done : string) : completion value :=
  wrapped "Health check failed" t_intercept t_done "/health".
End Client.

(** [axiosInstance.defaults.headers.common], by header name. *)
Definition setAuthHeader (env : Builtins) (token : value)
  (common : gmap string string) : gmap string string :=
  <[ "Authorization" := ("Bearer " ++ to_string env token)%string ]> common.

Definition clearAuthHeader (common : gmap string string) : gmap string string :=
  delete "Authorization" common.

End Api.

(* ================================================================= *)
(** ** The chat panel ([client/src/components/ChatPanel.jsx])         *)
(* ================================================================= *)

Module Chat.
Import Js.

(** The role selection held by [App]: [{ grade: null, class: null }]
    initially, changed by the role selector. *)
Record Role : Type := { grade : value; class : value }.

(** A chat message; [isError] and [count] are absent ([false], [None])
    where the source leaves them out. *)
Record Message : Type := {
  sender : string;
  text : string;
  timestamp : string;
  isError : bool;
  count : option value
}.

(** The pieces of React state [handleSend] touches: [input], [loading]
    and [error] are local to the panel, [messages], [results] and
    [condition] belong to [App] and arrive as setters. *)
Record State : Type := {
  input : string;
  loading : bool;
  error : value;
  messages : list Message;
  results : value;
  condition : value
}.

(** The four readings of the clock during one submission. *)
Record Clock : Type := {
  t_user : string;
  t_intercept : string;
  t_reply : string;
  t_bot : string
}.

Definition newline : string := String (ascii_of_nat 10) EmptyString.

Section Panel.
Variable env : Builtins.
Variable transport : Api.QueryRequest -> Api.Reply.
Variable role : Role.
Variable session : string.
Variable clock : Clock.

(** The argument of [api.postQuery] in [handleSend]. *)
Definition request (st : State) : Api.QueryRequest :=
  {| Api.query := input st;
     Api.role := {| Api.grade := grade role; Api.class_name := class role |};
     Api.sessionId := session |}.

(** State after the synchronous prefix of [handleSend]. *)
Definition submitted (st : State) : State :=
  {| input := "";
     loading := true;
     error := JStr "";
     messages := messages st ++
       [ {| sender := "user"; text := input st; timestamp := t_user clock;
            isError := false; count := None |} ];
     results := results st;
     condition := condition st |}.

(** The branch taken when [res.error] is truthy. *)
Definition on_error (err : value) (st : State) : State :=
  {| input := input st;
     loading := loading st;
     error := err;
     messages := messages st ++
       [ {| sender := "bot"; text := "❌ Error: " ++ to_string env err;
            timestamp := t_bot clock; isError := true; count := None |} ];
     results := results st;
     condition := condition st |}.

(** The [else] branch: the reply is shown as a result set. *)
Definition on_success (res_condition res_results res_count : value)
  (st : State) : State :=
  let cond := or_else res_condition (JStr "") in
  {| input := input st;
     loading := loading st;
     error := error st;
     messages := messages st ++
       [ {| sender := "bot";
            text := "✅ Found " ++ to_string env (or_else res_count (JNum 0))
                    ++ " result(s)" ++ newline ++ "Filter: `"
                    ++ to_string env cond ++ "`";
            timestamp := t_bot clock; isError := false;
            count := Some res_count |} ];
     results := or_else res_results (JArr []);
     condition := cond |}.

(** The [catch] clause.  When reading [err.message] itself raises, no
    state is set and the promise returned by [handleSend] rejects. *)
Definition on_exception (err : value) (st : State) : State :=
  match get env err "message" with
  | Normal m =>
      {| input := input st;
         loading := loading st;
         error := or_else m (JStr "Network error");
         messages := messages st ++
           [ {| sender := "bot";
                text := "⚠️ Network error - Please try again";
                timestamp := t_bot clock; isError := true; count := None |} ];
         results := results st;
         condition := condition st |}
  | Throw _ => st
  end.

(** The [finally] clause. *)
Definition settled (st : State) : State :=
  {| input := input st;
     loading := false;
     error := error st;
     messages := messages st;
     results := results st;
     condition := condition st |}.

(** The [try] block.  Its first throwing expressions ([await] and
    [res.error]) precede every setter call, so an exception always
    leaves the state as [submitted] made it. *)
Definition attempt (st : State) : completion State :=
  res ← Api.postQuery env transport (t_intercept clock) (t_reply clock)
          (request st);
  err ← get env res "error";
  if truthy err then mret (on_error err (submitted st))
  else
    c ← get env res "condition";
    rs ← get env res "results";
    n ← get env res "count";
    mret (on_success c rs n (submitted st)).

(** [handleSend(e)]: the request sent, if any, and the state once the
    returned promise has settled. *)
Definition handleSend (st : State) : option Api.QueryRequest * State :=
  if negb (truthy (JStr (trim env (input st)))) then (None, st)
  else
    ( Some (request st),
      settled match attempt st with
              | Normal st' => st'
              | Throw err => on_exception err (submitted st)
              end ).
End Panel.

End Chat.

(* ================================================================= *)
(** ** The dashboard's aggregates ([Dashboard], in ChatPanel.jsx)     *)
(* ================================================================= *)

Module Dashboard.
Import Js.

(** A result row: the own properties of one element of [results]. *)
Definition row : Type := list (string * value).

(** The running sums kept per class by [scores]. *)
Record Accumulator : Type := { total : float; count : float }.

(** One entry of [byClass] and of [scores]. *)
Record ClassCount : Type := { name : string; value : Js.value }.
Record ClassAverage : Type := { avg_name : string; avg : float }.

(** [map[k] = v] on the dictionary [map].  Assigning to ["__proto__"]
    runs the inherited setter and creates no own property; with what this
    component stores there (a primitive in [byClass], [Object.prototype]
    itself in [scores]) the prototype stays as it was. *)
Definition store {V : Type} (k : string) (v : V) (map : list (string * V))
  : list (string * V) :=
  if String.eqb k "__proto__" then map else assign k v map.

Section Aggregates.
Variable env : Builtins.

(** [r.class || 'Unknown'], converted to the property key it indexes. *)
Definition cls (r : row) : string :=
  to_string env (or_else (get_prop r "class") (JStr "Unknown")).

(** Body of the [forEach] in [byClass]:
    [map[cls] = (map[cls] || 0) + 1]. *)
Definition count_row (map : list (string * Js.value)) (r : row)
  : list (string * Js.value) :=
  let c := cls r in
  store c (plus_one env (or_else (get_prop map c) (JNum 0))) map.

Definition byClass (results : list row) : list ClassCount :=
  map (fun e => {| name := fst e; value := snd e |})
      (fold_left count_row results []).

(** [map[cls] || { total: 0, count: 0 }].  A class named after an
    inherited member finds the built-in object there; reading its
    [total] and [count] gives [undefined], which every [+=] turns into
    NaN, so such an accumulator behaves as one that starts at NaN. *)
Definition accumulator_of (map : list (string * Accumulator)) (c : string)
  : Accumulator :=
  match own c map with
  | Some a => a
  | None =>
      if truthy (inherited c) then {| total := nan; count := nan |}
      else {| total := 0; count := 0 |}
  end.

(** Body of the [forEach] in [scores].  (For a class named
    ["__proto__"] the two [+=] land on [Object.prototype]; they leave
    NaN members there, which, being falsy, change nothing below.) *)
Definition score_row (map : list (string * Accumulator)) (r : row)
  : list (string * Accumulator) :=
  let c := cls r in
  let a := accumulator_of map c in
  let x := to_number env (or_else (get_prop r "quiz_score") (JNum 0)) in
  store c {| total := total a + x; count := count a + 1 |} map.

Definition scores (results : list row) : list ClassAverage :=
  if Nat.eqb (length results) 0 then []
  else
    map (fun e => {| avg_name := fst e;
                     avg := toFixed1 (total (snd e) / count (snd e)) |})
        (fold_left score_row results []).
End Aggregates.

End Dashboard.

(* ================================================================= *)
(** ** The results table ([ResultsPanel])                             *)
(* ================================================================= *)

Module ResultsPanel.
Import Js.

Definition row : Type := list (string * value).

Inductive Direction : Type := asc | desc.

(** [sortConfig]; [key] is [null] ([None]) until a header is clicked. *)
Record SortConfig : Type := { key : option string; direction : Direction }.

Definition initialSort : SortConfig := {| key := None; direction := asc |}.

(** What a table cell shows: a yes/no badge for booleans, the value
    itself otherwise. *)
Inductive Cell : Type :=
| Badge (b : bool)
| Plain (v : value).

(** The rendered table, reduced to the data it displays. *)
Record Table : Type := {
  found : nat;                       (* "{n} record(s) found" *)
  toggles : list string;             (* column visibility buttons *)
  columns : list string;             (* header cells after "#" *)
  body : list (nat * list Cell);     (* row number and cells *)
  showing : nat * nat;               (* "Showing {n} of {n} results" *)
  visibility : nat * nat             (* "{v} of {h} columns visible" *)
}.

Inductive View : Type :=
| NoResults
| ResultsTable (t : Table).

(** [Array.prototype.sort] with a comparator.  The sort is stable; for a
    comparator that orders the elements consistently the outcome is the
    unique stable arrangement, built here by insertion.  (For other
    comparators the engine may arrange the elements differently, always as
    a permutation.) *)
Fixpoint insert_sorted {A : Type} (cmp : A -> A -> float) (x : A) (l : list A)
  : list A :=
  match l with
  | [] => [x]
  | y :: l' =>
      if PrimFloat.ltb 0 (cmp y x) then x :: l else y :: insert_sorted cmp x l'
  end.

Definition array_sort {A : Type} (cmp : A -> A -> float) (l : list A) : list A :=
  fold_left (fun acc x => insert_sorted cmp x acc) l [].

Section Panel.
Variable env : Builtins.
(** the [results] prop; [None] when it is [null] or [undefined] *)
Variable results : option (list row).
Variable sortConfig : SortConfig.
Variable hiddenColumns : gset string.

Definition headers : list string :=
  match results with
  | Some (first :: _) => keys first
  | _ => []
  end.

Definition visibleHeaders : list string :=
  List.filter (fun h => negb (bool_decide (h ∈ hiddenColumns))) headers.

(** The comparator passed to [sort]. *)
Definition compare_rows (k : string) (a b : row) : float :=
  match get_prop a k, get_prop b k with
  | JNum aVal, JNum bVal =>
      match direction sortConfig with
      | asc => (aVal - bVal)%float
      | desc => (bVal - aVal)%float
      end
  | aVal, bVal =>
      let aStr := toLowerCase env (to_string env aVal) in
      let bStr := toLowerCase env (to_string env bVal) in
      match direction sortConfig with
      | asc => localeCompare env aStr bStr
      | desc => localeCompare env bStr aStr
      end
  end.

Definition sortedResults : list row :=
  match key sortConfig, results with
  | Some k, Some (first :: rest) =>
      if String.eqb k "" then first :: rest
      else array_sort (compare_rows k) (first :: rest)
  | _, Some rs => rs
  | _, None => []
  end.

Definition cell (r : row) (h : string) : Cell :=
  match get_prop r h with
  | JBool b => Badge b
  | v => Plain v
  end.

Fixpoint number_rows (i : nat) (rs : list row) : list (nat * list Cell) :=
  match rs with
  | [] => []
  | r :: rs' => (i + 1, map (cell r) visibleHeaders) :: number_rows (S i) rs'
  end.

Definition render : View :=
  match results with
  | None | Some [] => NoResults
  | Some _ =>
      ResultsTable
        {| found := length sortedResults;
           toggles := headers;
           columns := visibleHeaders;
           body := number_rows 0 sortedResults;
           showing := (length sortedResults, length sortedResults);
           visibility := (length visibleHeaders, length headers) |}
  end.






End Panel.

(** [handleSort(key)], as the updater passed to [setSortConfig]. *)
Definition handleSort (k : string) (prev : SortConfig) : SortConfig :=
  {| key := Some k;
     direction :=
       match key prev, direction prev with
       | Some k', asc => if String.eqb k' k then desc else asc
       | _, _ => asc
       end |}.

(** [toggleColumnVisibility(col)]: the new value of [hiddenColumns]. *)
Definition toggleColumnVisibility (col : string) (hidden : gset string)
  : gset string :=
  if bool_decide (col ∈ hidden) then hidden ∖ {[ col ]} else {[ col ]} ∪ hidden.

End ResultsPanel.

(* ================================================================= *)
(** ** The role selector ([RoleSelector])                             *)
(* ================================================================= *)

Module RoleSelector.
Import Js.

(** The [value]s of the grade and class buttons. *)
Definition grades : list value := [ JNull; JNum 7; JNum 8; JNum 9 ].
Definition classes : list value := [ JNull; JStr "A"; JStr "B"; JStr "C" ].

(** [setRole({ ...role, grade: g.value })] and
    [setRole({ ...role, class: c.value })]. *)
Definition chooseGrade (g : value) (role : Chat.Role) : Chat.Role :=
  {| Chat.grade := g; Chat.class := Chat.class role |}.

Definition chooseClass (c : value) (role : Chat.Role) : Chat.Role :=
  {| Chat.grade := Chat.grade role; Chat.class := c |}.

(** [a === b] when [b] is one of the primitive button values. *)
Definition same_primitive (a b : value) : bool :=
  match a, b with
  | JUndefined, JUndefined => true
  | JNull, JNull => true
  | JBool x, JBool y => Bool.eqb x y
  | JNum x, JNum y => PrimFloat.eqb x y
  | JStr x, JStr y => String.eqb x y
  | _, _ => false
  end.

(** Whether a button carries the highlighted style. *)
Definition gradeActive (role : Chat.Role) (g : value) : bool :=
  same_primitive (Chat.grade role) g.

Definition classActive (role : Chat.Role) (c : value) : bool :=
  same_primitive (Chat.class role) c.

(** The two badges of the "Active Scope" box. *)
Definition scopeBadges (env : Builtins) (role : Chat.Role) : string * string :=
  ( if same_primitive (Chat.grade role) JNull then "All Grades"
    else ("Grade " ++ to_string env (Chat.grade role))%string,
    if same_primitive (Chat.class role) JNull then "All Classes"
    else ("Class " ++ to_string env (Chat.class role))%string ).

End RoleSelector.

(* ================================================================= *)
(** ** The application store ([useAppStore])                          *)
(* ================================================================= *)

Module Store.
Import Js.






End Store.

(* ================================================================= *)
(** ** The query-resolution core (specification, sections 3 and 4)    *)
(* ================================================================= *)

Module Core.

(** Modelled from the spec: the data model of section 3.  The server that
    implements the pipeline (access control, query agent, evaluation) is
    not among the sources; every definition of this module follows the
    specification's text. *)
Record StudentRecord : Type := {
  name : string;
  grade : Z;
  class_name : string;
  quiz_score : Q;
  homework_submitted : bool
}.

(** Modelled from the spec: the fields the Schema Registry declares. *)
Inductive Field : Type :=
| f_name | f_grade | f_class_name | f_quiz_score | f_homework_submitted.

(** Modelled from the spec: a typed comparison value. *)
Inductive Scalar : Type :=
| SInt (z : Z)
| SNum (q : Q)
| SText (s : string)
| SBool (b : bool).

(** Modelled from the spec: "equality, inequality, numeric ordering". *)
Inductive Operator : Type := op_eq | op_ne | op_lt | op_le | op_gt | op_ge.

(** Modelled from the spec: Predicate = {field, operator, value}. *)
Record Predicate : Type := {
  field : Field;
  operator : Operator;
  value : Scalar
}.

(** Modelled from the spec: predicates combined with AND / OR. *)
Inductive Filter : Type :=
| Atom (p : Predicate)
| And (a b : Filter)
| Or (a b : Filter).

(** Modelled from the spec: RoleScope = {grade, class_name}, each a value
    or "any" ([None]). *)
Record RoleScope : Type := {
  scope_grade : option Z;
  scope_class : option string
}.

Inductive Direction : Type := Max | Min.

(** Modelled from the spec: RankingSpec = {field, direction, limit}; ties
    at the extreme are all included.  Section 4.4 evaluates a ranking by
    the extreme value alone. *)
Record RankingSpec : Type := {
  rank_field : Field;
  direction : Direction;
  limit : nat
}.

(** Modelled from the spec: a Condition is either a pure filter or a
    ranking query; a ranking carries the candidate pool it ranks over,
    which is what the enforcer restricts. *)
Inductive Condition : Type :=
| FilterQuery (f : Filter)
| RankingQuery (spec : RankingSpec) (pool : RoleScope).

(** Modelled from the spec: the error taxonomy of section 7. *)
Inductive Error : Type :=
| SchemaViolation
| TranslationUnavailable
| TranslationInvalid
| InternalConsistencyFault.

(** Modelled from the spec: QueryResult's rows and count. *)
Record QueryResult : Type := {
  rows : list StudentRecord;
  count : nat
}.

Definition field_value (f : Field) (r : StudentRecord) : Scalar :=
  match f with
  | f_name => SText (name r)
  | f_grade => SInt (grade r)
  | f_class_name => SText (class_name r)
  | f_quiz_score => SNum (quiz_score r)
  | f_homework_submitted => SBool (homework_submitted r)
  end.

Definition ordering {A : Type} (eqb leb : A -> A -> bool) (op : Operator)
  (x y : A) : bool :=
  match op with
  | op_eq => eqb x y
  | op_ne => negb (eqb x y)
  | op_lt => leb x y && negb (eqb x y)
  | op_le => leb x y
  | op_gt => negb (leb x y)
  | op_ge => negb (leb x y) || eqb x y
  end.

(** Modelled from the spec: a single comparison; [None] is the
    internal-consistency fault of section 4.4 (value type or operator not
    matching the field). *)
Definition compare_scalar (op : Operator) (x y : Scalar) : option bool :=
  match x, y with
  | SInt a, SInt b => Some (ordering Z.eqb Z.leb op a b)
  | SNum a, SNum b => Some (ordering Qeq_bool Qle_bool op a b)
  | SText a, SText b =>
      match op with
      | op_eq => Some (String.eqb a b)
      | op_ne => Some (negb (String.eqb a b))
      | _ => None
      end
  | SBool a, SBool b =>
      match op with
      | op_eq => Some (Bool.eqb a b)
      | op_ne => Some (negb (Bool.eqb a b))
      | _ => None
      end
  | _, _ => None
  end.

Definition eval_predicate (p : Predicate) (r : StudentRecord) : option bool :=
  compare_scalar (operator p) (field_value (field p) r) (value p).

(** Modelled from the spec: filter mode evaluates the tree with
    short-circuit boolean logic. *)
Fixpoint eval_filter (f : Filter) (r : StudentRecord) : option bool :=
  match f with
  | Atom p => eval_predicate p r
  | And a b =>
      match eval_filter a r with
      | Some true => eval_filter b r
      | other => other
      end
  | Or a b =>
      match eval_filter a r with
      | Some false => eval_filter b r
      | other => other
      end
  end.

Definition grade_is (g : Z) : Predicate :=
  {| field := f_grade; operator := op_eq; value := SInt g |}.
Definition class_is (c : string) : Predicate :=
  {| field := f_class_name; operator := op_eq; value := SText c |}.

(** Modelled from the spec: "if the candidate Condition already constrains
    grade/class to a value outside RoleScope, the enforcer overrides it". *)
Definition override_predicate (s : RoleScope) (p : Predicate) : Predicate :=
  match field p, operator p, scope_grade s, scope_class s with
  | f_grade, op_eq, Some g, _ => grade_is g
  | f_class_name, op_eq, _, Some c => class_is c
  | _, _, _, _ => p
  end.

Fixpoint override (s : RoleScope) (f : Filter) : Filter :=
  match f with
  | Atom p => Atom (override_predicate s p)
  | And a b => And (override s a) (override s b)
  | Or a b => Or (override s a) (override s b)
  end.

(** Modelled from the spec: "conjoin (AND) an equality predicate on grade
    to the Condition's filter branch ... same rule for class_name". *)
Definition conjoin (s : RoleScope) (f : Filter) : Filter :=
  let with_grade :=
    match scope_grade s with
    | Some g => And f (Atom (grade_is g))
    | None => f
    end in
  match scope_class s with
  | Some c => And with_grade (Atom (class_is c))
  | None => with_grade
  end.

(** Modelled from the spec: for ranking queries the role's bounds replace
    those of the candidate pool. *)
Definition clamp (s pool : RoleScope) : RoleScope :=
  {| scope_grade :=
       match scope_grade s with Some g => Some g | None => scope_grade pool end;
     scope_class :=
       match scope_class s with Some c => Some c | None => scope_class pool end |}.

(** Modelled from the spec: the Access Scope Enforcer of section 4.3, a
    pure function from (Condition, RoleScope) to a new Condition. *)
Definition enforce (c : Condition) (s : RoleScope) : Condition :=
  match c with
  | FilterQuery f => FilterQuery (conjoin s (override s f))
  | RankingQuery spec pool => RankingQuery spec (clamp s pool)
  end.

Definition in_pool (pool : RoleScope) (r : StudentRecord) : bool :=
  match scope_grade pool with Some g => Z.eqb (grade r) g | None => true end
  && match scope_class pool with
     | Some c => String.eqb (class_name r) c
     | None => true
     end.

(** Modelled from the spec: filter mode over the dataset, in dataset
    order; a predicate that cannot be evaluated is a fault. *)
Fixpoint select (f : Filter) (dataset : list StudentRecord)
  : option (list StudentRecord) :=
  match dataset with
  | [] => Some []
  | r :: rest =>
      match eval_filter f r, select f rest with
      | Some true, Some kept => Some (r :: kept)
      | Some false, Some kept => Some kept
      | _, _ => None
      end
  end.

Definition numeric (f : Field) : option (StudentRecord -> Q) :=
  match f with
  | f_grade => Some (fun r => inject_Z (grade r))
  | f_quiz_score => Some quiz_score
  | _ => None
  end.

Definition better (d : Direction) (best q : Q) : Q :=
  match d with
  | Max => if Qle_bool best q then q else best
  | Min => if Qle_bool q best then q else best
  end.

(** Modelled from the spec: ranking mode: the extreme value over the
    candidate pool, and every row of the pool that attains it. *)
Definition rank (spec : RankingSpec) (pool : RoleScope)
  (dataset : list StudentRecord) : option (list StudentRecord) :=
  let candidates := List.filter (in_pool pool) dataset in
  match candidates, numeric (rank_field spec) with
  | [], _ => Some []
  | _ :: _, None => None
  | first :: others, Some score =>
      let extreme :=
        fold_left (better (direction spec)) (map score others) (score first) in
      Some (List.filter (fun r => Qeq_bool (score r) extreme) candidates)
  end.

(** Modelled from the spec: the Query Evaluator of section 4.4. *)
Definition evaluate (c : Condition) (dataset : list StudentRecord)
  : Error + QueryResult :=
  let found :=
    match c with
    | FilterQuery f => select f dataset
    | RankingQuery spec pool => rank spec pool dataset
    end in
  match found with
  | Some rs => inr {| rows := rs; count := length rs |}
  | None => inl InternalConsistencyFault
  end.

(** Modelled from the spec: the data flow of section 2, with the
    translator (an external service plus validation) as a parameter:
    text + role -> candidate -> enforcer -> evaluator. *)
Definition resolve (translate : string -> RoleScope -> Error + Condition)
  (dataset : list StudentRecord) (text : string) (scope : RoleScope)
  : Error + QueryResult :=
  match translate text scope with
  | inl e => inl e
  | inr candidate => evaluate (enforce candidate scope) dataset
  end.

End Core.

(* ================================================================= *)
(** ** An engine and sample data for the examples                     *)
(* ================================================================= *)

Module Sample.
Import Js.

Definition is_space (c : ascii) : bool :=
  let n := nat_of_ascii c in
  Nat.eqb n 32 || (Nat.leb 9 n && Nat.leb n 13).

Fixpoint trim_start (s : string) : string :=
  match s with
  | String c s' => if is_space c then trim_start s' else s
  | EmptyString => EmptyString
  end.

Fixpoint trim_end (s : string) : string :=
  match s with
  | String c s' =>
      match trim_end s' with
      | EmptyString => if is_space c then EmptyString else String c EmptyString
      | t => String c t
      end
  | EmptyString => EmptyString
  end.

Definition lower (c : ascii) : ascii :=
  let n := nat_of_ascii c in
  if Nat.leb 65 n && Nat.leb n 90 then ascii_of_nat (n + 32) else c.

Fixpoint lowercase (s : string) : string :=
  match s with
  | String c s' => String (lower c) (lowercase s')
  | EmptyString => EmptyString
  end.

(** An engine for ASCII text.  Its conversions are exact on what the
    examples convert: a number equal to a natural number below 1000
    prints as that numeral, strings trim and fold case bytewise. *)
Definition engine : Builtins :=
  {| toString := fun v =>
       match v with
       | JUndefined => "undefined"
       | JNull => "null"
       | JBool b => if b then "true" else "false"
       | JNum x =>
           match List.find (fun n => PrimFloat.eqb (PrimFloat.of_uint63 (Uint63.of_Z (Z.of_nat n))) x)
                           (seq 0 1000) with
           | Some n => NilEmpty.string_of_uint (Nat.to_uint n)
           | None => "NaN"
           end
       | JStr s => s
       | JArr _ => ""
       | JObj _ => "[object Object]"
       | JBuiltin _ => "function () { [native code] }"
       end;
     toNumber := fun _ => nan;
     toLowerCase := lowercase;
     localeCompare := fun a b =>
       match String.compare a b with
       | Lt => (-1)%float
       | Eq => 0%float
       | Gt => 1%float
       end;
     trim := fun s => trim_end (trim_start s);
     typeErrorMessage := "Cannot read properties of null" |}.

Definition student (n : string) (g : float) (c : string) (q : float)
  : list (string * value) :=
  [ ("student_name", JStr n); ("grade", JNum g); ("class", JStr c);
    ("quiz_score", JNum q) ].

(** Three rows with classes A, A, B and quiz scores 80, 90, 70. *)
Definition three_rows : list (list (string * value)) :=
  [ student "Asha" 8 "A" 80; student "Bala" 8 "A" 90; student "Chitra" 8 "B" 70 ].

(** Classes in the order B, A, B. *)
Definition late_first : list (list (string * value)) :=
  [ student "Devi" 7 "B" 60; student "Eshan" 7 "A" 75; student "Farah" 7 "B" 90 ].

(** An error body in the style of a validation failure, whose [message]
    is a list. *)
Definition listed_messages : value :=
  JObj [ ("statusCode", JNum 400);
         ("message", JArr [JStr "query should not be empty"]);
         ("error", JStr "Bad Request") ].

(** An error body with a [detail] of its own and a nested [response]. *)
Definition nested_detail : value :=
  JObj [ ("detail", JStr "Query failed");
         ("response", JObj [("data", JObj [("detail", JStr "upstream timeout")])]) ].

(** The body FastAPI sends with an [HTTPException]. *)
Definition plain_detail : value := JObj [ ("detail", JStr "Query failed") ].

Definition rejects (status_text : string) (body : option value)
  : Api.QueryRequest -> Api.Reply :=
  fun _ => Api.Rejected {| Api.message := status_text; Api.response := body |}.

Definition answers (data : value) : Api.QueryRequest -> Api.Reply :=
  fun _ => Api.Fulfilled data.

Definition ask (text : string) : Api.QueryRequest :=
  {| Api.query := text;
     Api.role := {| Api.grade := JNum 8; Api.class_name := JStr "A" |};
     Api.sessionId := "session-1" |}.

(** A teacher of grade 8, class A, with earlier results on screen. *)
Definition teacher : Chat.Role := {| Chat.grade := JNum 8; Chat.class := JStr "A" |}.

Definition clock : Chat.Clock :=
  {| Chat.t_user := "2026-01-01T09:00:00.000Z";
     Chat.t_intercept := "2026-01-01T09:00:30.000Z";
     Chat.t_reply := "2026-01-01T09:00:30.001Z";
     Chat.t_bot := "2026-01-01T09:00:30.002Z" |}.

Definition typing (text : string) : Chat.State :=
  {| Chat.input := text;
     Chat.loading := false;
     Chat.error := JStr "";
     Chat.messages := [];
     Chat.results := JArr (map JObj three_rows);
     Chat.condition := JStr "grade == 8" |}.

(** A second row that carries a key the first row lacks. *)
Definition extra_key_later : list (list (string * value)) :=
  [ student "Asha" 8 "A" 80;
    student "Bala" 8 "A" 90 ++ [("remarks", JStr "late submission")] ].

(** A small school: two grade-7 rows tied at 95, one grade-8 row at 99. *)
Definition school : list Core.StudentRecord :=
  [ {| Core.name := "Asha"; Core.grade := 7; Core.class_name := "A";
       Core.quiz_score := 95 # 1; Core.homework_submitted := true |};
    {| Core.name := "Bala"; Core.grade := 7; Core.class_name := "B";
       Core.quiz_score := 95 # 1; Core.homework_submitted := false |};
    {| Core.name := "Chitra"; Core.grade := 8; Core.class_name := "A";
       Core.quiz_score := 99 # 1; Core.homework_submitted := true |} ].

(** A translator that, whatever the text, asks for grade 8. *)
Definition adversary : string -> Core.RoleScope -> Core.Error + Core.Condition :=
  fun _ _ => inr (Core.FilterQuery (Core.Atom (Core.grade_is 8))).

Definition grade7 : Core.RoleScope :=
  {| Core.scope_grade := Some 7%Z; Core.scope_class := None |}.

(** Sections that are numbered rather than lettered, "2" before "1". *)
Definition numbered_sections : list (list (string * value)) :=
  [ student "Gita" 9 "2" 75; student "Hari" 9 "1" 65 ].

End Sample.

(* ================================================================= *)
(** ** Vocabulary of the statements                                   *)
(* ================================================================= *)

Module Order.

(** The keys of [ks] in the order of their first appearance, skipping
    those in [seen]. *)
Fixpoint first_seen_from (seen : gset string) (ks : list string) : list string :=
  match ks with
  | [] => []
  | k :: ks' =>
      if bool_decide (k ∈ seen) then first_seen_from seen ks'
      else k :: first_seen_from ({[ k ]} ∪ seen) ks'
  end.

Definition first_seen (ks : list string) : list string := first_seen_from ∅ ks.

(** A key that an object enumerates where it was created: not an array
    index, and not the accessor name ["__proto__"]. *)
Definition ordinary (k : string) : Prop :=
  Js.array_index k = None /\ k <> "__proto__".

End Order.

Module Reply.
Import Js.

(** [v] is a non-empty string. *)
Definition nonempty_text (v : value) : Prop :=
  exists s, v = JStr s /\ s <> "".

(** The error carries nothing but text where the [catch] clause looks:
    an object body has no [response] member, and its [message], if any, is
    a string. *)
Definition textual (e : Api.AxiosError) : Prop :=
  match Api.response e with
  | Some (JObj body) =>
      own "response" body = None /\
      (own "message" body = None \/ exists s, own "message" body = Some (JStr s))
  | _ => True
  end.

End Reply.

Module Shown.
Import Js Chat.

(** After a submission from [st], the panel [st'] shows [err]: as its
    error line, and as an error message following the user's own. *)
Definition error_shown (env : Builtins) (clock : Clock) (st st' : State)
  (err : value) : Prop :=
  error st' = err /\
  messages st' =
    messages st ++
    [ {| sender := "user"; text := input st; timestamp := t_user clock;
         isError := false; count := None |};
      {| sender := "bot"; text := "❌ Error: " ++ to_string env err;
         timestamp := t_bot clock; isError := true; count := None |} ].

(** [results] and [condition] are those of [st]. *)
Definition results_kept (st st' : State) : Prop :=
  results st' = results st /\ condition st' = condition st.

End Shown.

Module Mean.
Import Js Dashboard.

Section Groups.
Variable env : Builtins.

(** The rows of [results] that fall into class [c]. *)
Definition members (c : string) (results : list row) : list row :=
  List.filter (fun r => String.eqb (cls env r) c) results.

(** One row added to a running sum: the two [+=] of [scores]. *)
Definition add_score (a : Accumulator) (r : row) : Accumulator :=
  {| total := total a + to_number env (or_else (get_prop r "quiz_score") (JNum 0));
     count := count a + 1 |}.

(** The mean of a group as [scores] reports it: the float sum of the
    members' scores over their number, to one decimal. *)
Definition mean (c : string) (group : list row) : float :=
  let a := fold_left add_score group (accumulator_of [] c) in
  toFixed1 (total a / count a).

(** [(v || 0) + 1] applied once per member row, from what a fresh
    dictionary yields for the key [c]: the count [byClass] keeps. *)
Definition tally (c : string) (n : nat) : Js.value :=
  Nat.iter n (fun v => plus_one env (or_else v (JNum 0))) (inherited c).
End Groups.

End Mean.

Module Text.

(** How often the character [c] occurs in [s]. *)
Definition occurrences (c : ascii) (s : string) : nat :=
  count_occ ascii_dec (list_ascii_of_string s) c.

End Text.

Module Csv.
Import Js.


End Csv.

Module Enumeration.

(** A key list in the enumeration order of an object: array-index keys
    first, each no greater than the index keys after it, then the keys
    that are not array indices. *)
Inductive Enumerated : list string -> Prop :=
| enumerated_names ks :
    List.Forall (fun k => Js.array_index k = None) ks -> Enumerated ks
| enumerated_index k n ks :
    Js.array_index k = Some n ->
    (forall k' n', In k' ks -> Js.array_index k' = Some n' -> (n <= n')%N) ->
    Enumerated ks ->
    Enumerated (k :: ks).

(** The keys of [ks] that are not array indices. *)
Definition names (ks : list string) : list string :=
  List.filter (fun k => match Js.array_index k with
                        | Some _ => false
                        | None => true
                        end) ks.

(** The class keys that become own properties as names: neither array
    indices nor ["__proto__"]. *)
Definition stored_names (ks : list string) : list string :=
  List.filter (fun k => negb (String.eqb k "__proto__")) (names ks).

End Enumeration.

(* ================================================================= *)
(** ** Facts about own properties                                     *)
(* ================================================================= *)

Section OwnProperties.
Context {V : Type}.
Implicit Types (m : list (string * V)) (k : string) (v : V).

Lemma own_None_keys k m : Js.own k m = None <-> ~ In k (Js.keys m).
Proof.
  induction m as [|[k' v'] m IH]; simpl.
  - tauto.
  - destruct (String.eqb_spec k k') as [->|Hne].
    + split; [discriminate | intros H; exfalso; apply H; now left].
    + rewrite IH. split.
      * intros H [E|E]; [congruence | tauto].
      * tauto.
Qed.

Lemma own_Some_In k v m : Js.own k m = Some v -> In (k, v) m.
Proof.
  induction m as [|[k' v'] m IH]; simpl; [discriminate|].
  destruct (String.eqb_spec k k') as [->|Hne].
  - intros [= ->]. now left.
  - intros H. right. now apply IH.
Qed.

Lemma In_own_NoDup k v m :
  List.NoDup (Js.keys m) -> In (k, v) m -> Js.own k m = Some v.
Proof.
  induction m as [|[k' v'] m IH]; simpl; [tauto|].
  intros Hnd [E|Hin].
  - inversion E; subst. now rewrite String.eqb_refl.
  - apply List.NoDup_cons_iff in Hnd as [Hk' Hnd].
    destruct (String.eqb_spec k k') as [->|Hne].
    + exfalso. apply Hk'. apply (in_map fst) in Hin. exact Hin.
    + now apply IH.
Qed.

Lemma keys_overwrite k v m : Js.keys (Js.overwrite k v m) = Js.keys m.
Proof.
  induction m as [|[k' v'] m IH]; simpl; [reflexivity|].
  destruct (String.eqb k k'); simpl; [reflexivity|].
  f_equal. exact IH.
Qed.

Lemma own_overwrite k k' v m :
  Js.own k (Js.overwrite k' v m) =
  if String.eqb k k' then option_map (fun _ => v) (Js.own k m) else Js.own k m.
Proof.
  induction m as [|[k0 v0] m IH]; simpl.
  - now destruct (String.eqb k k').
  - destruct (String.eqb_spec k' k0) as [->|Hne]; simpl.
    + destruct (String.eqb_spec k k0) as [->|Hne']; reflexivity.
    + destruct (String.eqb_spec k k0) as [->|Hne'].
      * destruct (String.eqb_spec k0 k') as [->|_]; [congruence | reflexivity].
      * exact IH.
Qed.

Lemma own_app_new k k' v m :
  Js.own k (m ++ [(k', v)]) =
  match Js.own k m with
  | Some x => Some x
  | None => if String.eqb k k' then Some v else None
  end.
Proof.
  induction m as [|[k0 v0] m IH]; simpl; [reflexivity|].
  destruct (String.eqb k k0); [reflexivity | exact IH].
Qed.

Lemma own_insert_index n k k' v m :
  Js.own k' m = None ->
  Js.own k (Js.insert_index n k' v m) =
  if String.eqb k k' then Some v else Js.own k m.
Proof.
  induction m as [|[k0 v0] m IH]; simpl; intros Hnew.
  - reflexivity.
  - destruct (String.eqb_spec k' k0) as [->|Hne]; [discriminate|].
    destruct (Js.array_index k0) as [n0|];
      [destruct (n0 <? n)%N|]; simpl; try reflexivity.
    destruct (String.eqb_spec k k0) as [->|Hne'].
    + destruct (String.eqb_spec k0 k') as [->|_]; [congruence | reflexivity].
    + now apply IH.
Qed.

Lemma keys_insert_index n k v m :
  forall x, In x (Js.keys (Js.insert_index n k v m)) <-> x = k \/ In x (Js.keys m).
Proof.
  induction m as [|[k0 v0] m IH]; simpl; intros x.
  - intuition congruence.
  - destruct (Js.array_index k0) as [n0|];
      [destruct (n0 <? n)%N|]; simpl; try (intuition congruence).
    rewrite IH. intuition congruence.
Qed.

Lemma NoDup_insert_index n k v m :
  ~ In k (Js.keys m) -> List.NoDup (Js.keys m) ->
  List.NoDup (Js.keys (Js.insert_index n k v m)).
Proof.
  induction m as [|[k0 v0] m IH]; simpl; intros Hk Hnd.
  - constructor; [tauto | constructor].
  - apply List.NoDup_cons_iff in Hnd as [Hk0 Hnd].
    assert (Hfresh : List.NoDup (k :: k0 :: Js.keys m)).
    { constructor; [simpl; tauto | constructor; assumption]. }
    destruct (Js.array_index k0) as [n0|];
      [destruct (n0 <? n)%N|]; simpl; try exact Hfresh.
    constructor.
    + rewrite keys_insert_index. intros [->|H]; tauto.
    + apply IH; tauto.
Qed.

(** Reading back after [m[k'] = v]. *)
Lemma own_assign k k' v m :
  Js.own k (Js.assign k' v m) = if String.eqb k k' then Some v else Js.own k m.
Proof.
  unfold Js.assign, Js.define.
  destruct (Js.own k' m) as [old|] eqn:Hk'.
  - rewrite own_overwrite.
    destruct (String.eqb_spec k k') as [->|_]; [now rewrite Hk' | reflexivity].
  - destruct (Js.array_index k') as [n|].
    + now apply own_insert_index.
    + rewrite own_app_new.
      destruct (String.eqb_spec k k') as [->|_]; [now rewrite Hk'|].
      now destruct (Js.own k m).
Qed.

Lemma NoDup_assign k v m :
  List.NoDup (Js.keys m) -> List.NoDup (Js.keys (Js.assign k v m)).
Proof.
  intros Hnd. unfold Js.assign, Js.define.
  destruct (Js.own k m) as [old|] eqn:Hk.
  - now rewrite keys_overwrite.
  - apply own_None_keys in Hk.
    destruct (Js.array_index k) as [n|].
    + now apply NoDup_insert_index.
    + unfold Js.keys in *. rewrite map_app. simpl.
      apply List.NoDup_app; [assumption | constructor; [tauto | constructor] |].
      intros x Hx [<-|[]]. tauto.
Qed.

Lemma In_keys_assign k v m :
  forall x, In x (Js.keys (Js.assign k v m)) -> x = k \/ In x (Js.keys m).
Proof.
  intros x. unfold Js.assign, Js.define.
  destruct (Js.own k m) as [old|].
  - rewrite keys_overwrite. tauto.
  - destruct (Js.array_index k) as [n|].
    + now rewrite keys_insert_index.
    + unfold Js.keys. rewrite map_app, in_app_iff. simpl. intuition congruence.
Qed.

(** An ordinary key is enumerated where it was created. *)
Lemma keys_assign_ordinary k v m :
  Js.array_index k = None ->
  Js.keys (Js.assign k v m) =
  if bool_decide (k ∈ (list_to_set (Js.keys m) : gset string))
  then Js.keys m else Js.keys m ++ [k].
Proof.
  intros Hk. unfold Js.assign, Js.define. rewrite Hk.
  destruct (Js.own k m) as [old|] eqn:Hown.
  - rewrite keys_overwrite, bool_decide_eq_true_2; [reflexivity|].
    apply elem_of_list_to_set, list_elem_of_In.
    apply own_Some_In in Hown. now apply (in_map fst) in Hown.
  - rewrite bool_decide_eq_false_2.
    + unfold Js.keys. now rewrite map_app.
    + rewrite elem_of_list_to_set, list_elem_of_In.
      now apply own_None_keys.
Qed.
End OwnProperties.

(* ================================================================= *)
(** ** The dashboard's groups                                         *)
(* ================================================================= *)

Lemma keys_store_ordinary {V : Type} (k : string) (v : V) (m : list (string * V)) :
  Order.ordinary k ->
  Js.keys (Dashboard.store k v m) =
  if bool_decide (k ∈ (list_to_set (Js.keys m) : gset string))
  then Js.keys m else Js.keys m ++ [k].
Proof.
  intros [Hidx Hproto]. unfold Dashboard.store.
  destruct (String.eqb_spec k "__proto__") as [E|_]; [contradiction|].
  now apply keys_assign_ordinary.
Qed.

(** A dictionary filled key by key enumerates ordinary keys in the order
    in which they first arrived. *)
Lemma keys_fold_first_seen {V R : Type}
  (step : list (string * V) -> R -> list (string * V)) (key : R -> string) :
  (forall m r, Order.ordinary (key r) ->
     Js.keys (step m r) =
     if bool_decide (key r ∈ (list_to_set (Js.keys m) : gset string))
     then Js.keys m else Js.keys m ++ [key r]) ->
  forall rs m,
    List.Forall (fun r => Order.ordinary (key r)) rs ->
    Js.keys (fold_left step rs m) =
    Js.keys m ++ Order.first_seen_from (list_to_set (Js.keys m)) (map key rs).
Proof.
  intros Hstep rs. induction rs as [|r rs IH]; intros m Hall; simpl.
  - now rewrite app_nil_r.
  - apply List.Forall_cons_iff in Hall as [Hr Hall].
    rewrite (IH _ Hall), (Hstep _ _ Hr).
    destruct (bool_decide (key r ∈ (list_to_set (Js.keys m) : gset string)));
      [reflexivity|].
    assert (Hset : (list_to_set (Js.keys m ++ [key r]) : gset string)
                   = {[ key r ]} ∪ list_to_set (Js.keys m)).
    { rewrite list_to_set_app_L. cbn [list_to_set foldr].
      rewrite (right_id_L ∅ (∪)). apply (comm_L (∪)). }
    now rewrite Hset, <- app_assoc.
Qed.

Lemma byClass_names env results :
  map Dashboard.name (Dashboard.byClass env results) =
  Js.keys (fold_left (Dashboard.count_row env) results []).
Proof. unfold Dashboard.byClass, Js.keys. now rewrite map_map. Qed.

Lemma scores_names env results :
  map Dashboard.avg_name (Dashboard.scores env results) =
  Js.keys (fold_left (Dashboard.score_row env) results []).
Proof.
  unfold Dashboard.scores. destruct results as [|r rs]; [reflexivity|].
  cbn [length Nat.eqb]. unfold Js.keys. now rewrite map_map.
Qed.

Lemma own_store {V : Type} (k k' : string) (v : V) (m : list (string * V)) :
  Js.own k (Dashboard.store k' v m) =
  if String.eqb k' "__proto__" then Js.own k m
  else if String.eqb k k' then Some v else Js.own k m.
Proof.
  unfold Dashboard.store. destruct (String.eqb k' "__proto__"); [reflexivity|].
  apply own_assign.
Qed.

Lemma NoDup_store {V : Type} (k : string) (v : V) (m : list (string * V)) :
  List.NoDup (Js.keys m) -> List.NoDup (Js.keys (Dashboard.store k v m)).
Proof.
  unfold Dashboard.store. destruct (String.eqb k "__proto__"); [tauto|].
  apply NoDup_assign.
Qed.

Lemma NoDup_fold_store {V R : Type}
  (step : list (string * V) -> R -> list (string * V)) :
  (forall m r, List.NoDup (Js.keys m) -> List.NoDup (Js.keys (step m r))) ->
  forall rs m, List.NoDup (Js.keys m) -> List.NoDup (Js.keys (fold_left step rs m)).
Proof.
  intros Hstep rs. induction rs as [|r rs IH]; intros m Hm; simpl; auto.
Qed.

Lemma accumulator_of_own (m : list (string * Dashboard.Accumulator)) c :
  Dashboard.accumulator_of m c =
  match Js.own c m with
  | Some a => a
  | None => Dashboard.accumulator_of [] c
  end.
Proof. unfold Dashboard.accumulator_of. simpl. now destruct (Js.own c m). Qed.

Lemma fold_add_score_Some env c ms a :
  fold_left
    (fun o r => Some (Mean.add_score env
                        match o with
                        | Some a' => a'
                        | None => Dashboard.accumulator_of [] c
                        end r)) ms (Some a)
  = Some (fold_left (Mean.add_score env) ms a).
Proof.
  revert a. induction ms as [|r ms IH]; intros a; simpl; [reflexivity|].
  apply IH.
Qed.

(** What [scores] holds for class [c] after a run of rows: nothing new
    when no row belongs to [c], otherwise the sums over its members. *)
Lemma own_score_rows env c rs :
  c <> "__proto__" ->
  forall m,
    Js.own c (fold_left (Dashboard.score_row env) rs m) =
    match Mean.members env c rs with
    | [] => Js.own c m
    | r :: ms =>
        Some (fold_left (Mean.add_score env) ms
                (Mean.add_score env (Dashboard.accumulator_of m c) r))
    end.
Proof.
  intros Hc. induction rs as [|r rs IH]; intros m; simpl; [reflexivity|].
  rewrite IH. unfold Mean.members in *. simpl.
  assert (Hstep : Js.own c (Dashboard.score_row env m r) =
                  if String.eqb (Dashboard.cls env r) c
                  then Some (Mean.add_score env (Dashboard.accumulator_of m c) r)
                  else Js.own c m).
  { unfold Dashboard.score_row. rewrite own_store.
    destruct (String.eqb_spec (Dashboard.cls env r) c) as [E|Hne].
    - rewrite E. destruct (String.eqb_spec c "__proto__"); [contradiction|].
      now rewrite String.eqb_refl.
    - destruct (String.eqb (Dashboard.cls env r) "__proto__"); [reflexivity|].
      destruct (String.eqb_spec c (Dashboard.cls env r)); [congruence | reflexivity]. }
  destruct (String.eqb (Dashboard.cls env r) c) eqn:Hr.
  - destruct (List.filter _ rs) as [|r' ms] eqn:Hms.
    + exact Hstep.
    + f_equal. rewrite accumulator_of_own, Hstep. reflexivity.
  - destruct (List.filter _ rs) as [|r' ms] eqn:Hms.
    + exact Hstep.
    + now rewrite accumulator_of_own, Hstep, <- accumulator_of_own.
Qed.

Lemma proto_never_own_scores env rs :
  forall m, Js.own "__proto__" m = None ->
    Js.own "__proto__" (fold_left (Dashboard.score_row env) rs m) = None.
Proof.
  induction rs as [|r rs IH]; intros m Hm; simpl; [exact Hm|].
  apply IH. unfold Dashboard.score_row. rewrite own_store.
  destruct (String.eqb (Dashboard.cls env r) "__proto__") eqn:E; [exact Hm|].
  destruct (String.eqb_spec "__proto__" (Dashboard.cls env r)) as [E'|_];
    [|exact Hm].
  rewrite <- E' in E. discriminate.
Qed.

(** Every entry of [scores] belongs to a class with at least one member
    row, and its average is the mean of those members. *)
Lemma scores_entry env results e :
  In e (Dashboard.scores env results) ->
  exists r rest,
    Mean.members env (Dashboard.avg_name e) results = r :: rest /\
    Dashboard.avg e = Mean.mean env (Dashboard.avg_name e) (r :: rest).
Proof.
  unfold Dashboard.scores. destruct results as [|r0 rs0]; [intros []|].
  cbn [length Nat.eqb]. generalize (r0 :: rs0). clear r0 rs0.
  intros results He. apply in_map_iff in He as [[c a] [<- Hin]].
  cbn [Dashboard.avg_name Dashboard.avg fst snd].
  assert (Hnd : List.NoDup (Js.keys (fold_left (Dashboard.score_row env) results []))).
  { apply NoDup_fold_store; [|constructor].
    intros m r. unfold Dashboard.score_row. apply NoDup_store. }
  pose proof (In_own_NoDup _ _ _ Hnd Hin) as Hown.
  assert (Hc : c <> "__proto__").
  { intros ->. now rewrite proto_never_own_scores in Hown. }
  rewrite (own_score_rows env c results Hc) in Hown.
  destruct (Mean.members env c results) as [|r ms]; [discriminate|].
  exists r, ms. split; [reflexivity|].
  injection Hown as <-. reflexivity.
Qed.

(** C2.  Rows with classes A, A, B and quiz scores 80, 90, 70 average to
    85 for A and 70 for B; and for every input, each entry of the
    grouped averages belongs to a class that has at least one member row
    (a class without rows has no entry), its value being the mean over
    those members. *)
Theorem grouped_average_of_members env :
  (forall r1 r2 r3 : Dashboard.row,
     Js.get_prop r1 "class" = Js.JStr "A" ->
     Js.get_prop r2 "class" = Js.JStr "A" ->
     Js.get_prop r3 "class" = Js.JStr "B" ->
     Js.get_prop r1 "quiz_score" = Js.JNum 80 ->
     Js.get_prop r2 "quiz_score" = Js.JNum 90 ->
     Js.get_prop r3 "quiz_score" = Js.JNum 70 ->
     Dashboard.scores env [r1; r2; r3] =
     [ {| Dashboard.avg_name := "A"; Dashboard.avg := 85 |};
       {| Dashboard.avg_name := "B"; Dashboard.avg := 70 |} ]) /\
  (forall (results : list Dashboard.row) (c : string),
     Mean.members env c results = [] ->
     ~ In c (map Dashboard.avg_name (Dashboard.scores env results))) /\
  (forall (results : list Dashboard.row) (e : Dashboard.ClassAverage),
     In e (Dashboard.scores env results) ->
     exists r rest,
       Mean.members env (Dashboard.avg_name e) results = r :: rest /\
       Dashboard.avg e = Mean.mean env (Dashboard.avg_name e) (r :: rest)).
Proof.
  split; [|split].
  - intros r1 r2 r3 C1 C2 C3 Q1 Q2 Q3.
    unfold Dashboard.scores. cbn [length Nat.eqb fold_left].
    unfold Dashboard.score_row, Dashboard.cls.
    rewrite C1, C2, C3, Q1, Q2, Q3.
    vm_compute. reflexivity.
  - intros results c Hnone Hin.
    apply in_map_iff in Hin as [e [<- He]].
    apply scores_entry in He as (r & rest & Hm & _). congruence.
  - intros results e. apply scores_entry.
Qed.

Lemma grouped_average_of_members_witness :
  Dashboard.scores Sample.engine Sample.three_rows =
    [ {| Dashboard.avg_name := "A"; Dashboard.avg := 85 |};
      {| Dashboard.avg_name := "B"; Dashboard.avg := 70 |} ] /\
  Mean.members Sample.engine "C" Sample.three_rows = [] /\
  ~ In "C" (map Dashboard.avg_name
              (Dashboard.scores Sample.engine Sample.three_rows)).
Proof.
  split; [|split].
  - apply (proj1 (grouped_average_of_members Sample.engine)); reflexivity.
  - reflexivity.
  - apply (proj1 (proj2 (grouped_average_of_members Sample.engine))).
    reflexivity.
Defined.

(** C7, as stated, fails: with sections named "2" and "1" both groupings
    list "1" before "2", although "2" is the first to appear. *)
Lemma numbered_sections_out_of_order :
  map Dashboard.name (Dashboard.byClass Sample.engine Sample.numbered_sections)
    = ["1"; "2"] /\
  map Dashboard.avg_name (Dashboard.scores Sample.engine Sample.numbered_sections)
    = ["1"; "2"] /\
  Order.first_seen
    (map (Dashboard.cls Sample.engine) Sample.numbered_sections) = ["2"; "1"] /\
  map Dashboard.name (Dashboard.byClass Sample.engine Sample.numbered_sections)
    <> Order.first_seen
         (map (Dashboard.cls Sample.engine) Sample.numbered_sections).
Proof. vm_compute. repeat split. discriminate. Qed.

(** C7, amended.  When no class key is an array index (a canonical decimal
    numeral) or ["__proto__"], the group keys of both the per-class counts
    and the per-class averages appear in the order of each key's first
    appearance in the input. *)
Theorem group_keys_in_first_appearance_order env (results : list Dashboard.row) :
  List.Forall (fun r => Order.ordinary (Dashboard.cls env r)) results ->
  map Dashboard.name (Dashboard.byClass env results)
    = Order.first_seen (map (Dashboard.cls env) results) /\
  map Dashboard.avg_name (Dashboard.scores env results)
    = Order.first_seen (map (Dashboard.cls env) results).
Proof.
  intros Hall. rewrite byClass_names, scores_names. unfold Order.first_seen.
  split.
  - rewrite (keys_fold_first_seen (Dashboard.count_row env) (Dashboard.cls env));
      [reflexivity | | exact Hall].
    intros m r Hr. unfold Dashboard.count_row. now apply keys_store_ordinary.
  - rewrite (keys_fold_first_seen (Dashboard.score_row env) (Dashboard.cls env));
      [reflexivity | | exact Hall].
    intros m r Hr. unfold Dashboard.score_row. now apply keys_store_ordinary.
Qed.

Lemma group_keys_in_first_appearance_order_witness :
  List.Forall (fun r => Order.ordinary (Dashboard.cls Sample.engine r))
    Sample.late_first /\
  map Dashboard.name (Dashboard.byClass Sample.engine Sample.late_first)
    = ["B"; "A"] /\
  map Dashboard.avg_name (Dashboard.scores Sample.engine Sample.late_first)
    = ["B"; "A"].
Proof.
  assert (H : List.Forall (fun r => Order.ordinary (Dashboard.cls Sample.engine r))
                Sample.late_first).
  { repeat constructor; discriminate. }
  split; [exact H|].
  exact (group_keys_in_first_appearance_order Sample.engine Sample.late_first H).
Defined.

(* ================================================================= *)
(** ** The API service layer                                          *)
(* ================================================================= *)

Ltac run_completion :=
  unfold mbind, Js.completion_bind, mret, Js.completion_ret.

Lemma get_truthy env v k :
  Js.truthy v = true -> exists x, Js.get env v k = Js.Normal x.
Proof. destruct v; cbn; try discriminate; eauto. Qed.

Lemma get_optional_total env v k :
  exists x, Js.get_optional env v k = Js.Normal x.
Proof. destruct v; cbn; eauto. Qed.

Lemma or_else_truthy a b : Js.truthy b = true -> Js.truthy (Js.or_else a b) = true.
Proof. intros Hb. unfold Js.or_else. now destruct (Js.truthy a) eqn:Ha. Qed.

(** What [handleError] throws is never [null] or [undefined]: it is the
    response body when that is truthy, a fresh object otherwise. *)
Lemma handleError_throws now e :
  exists thrown,
    Api.handleError now e = Js.Throw thrown /\ Js.truthy thrown = true /\
    (Api.response e = Some thrown \/
     thrown = Js.JObj [ ("error", Js.or_else (Js.JStr (Api.message e))
                                    (Js.JStr "Network error"));
                        ("code", Js.JStr "NETWORK_ERROR");
                        ("timestamp", Js.JStr now) ]).
Proof.
  unfold Api.handleError. destruct (Api.response e) as [d|].
  - destruct (Js.truthy d) eqn:Hd; eexists; eauto.
  - cbn. eexists; eauto.
Qed.

(** The [catch] clause always produces the failure object, with a truthy
    [error]. *)
Lemma recover_returns env t thrown :
  Js.truthy thrown = true ->
  exists err,
    Api.recover env t thrown = Js.Normal (Api.failure err t) /\
    Js.truthy err = true.
Proof.
  intros Hthrown. unfold Api.recover. run_completion.
  destruct (get_truthy env thrown "response" Hthrown) as [r ->].
  destruct (get_optional_total env r "data") as [d ->].
  destruct (get_truthy env (Js.or_else d (Js.JObj [])) "detail"
              (or_else_truthy d (Js.JObj []) eq_refl)) as [detail ->].
  destruct (Js.truthy detail) eqn:Hdetail.
  - eauto.
  - destruct (get_truthy env thrown "message" Hthrown) as [m ->].
    eexists. split; [reflexivity|]. now apply or_else_truthy.
Qed.

(** Thrown values that are not objects, and the object [handleError]
    builds itself, carry neither [response] nor [message]. *)
Lemma recover_fallback env t thrown :
  Js.truthy thrown = true ->
  (forall body, thrown = Js.JObj body ->
     Js.own "response" body = None /\ Js.own "message" body = None) ->
  Api.recover env t thrown =
  Js.Normal (Api.failure (Js.JStr "Failed to process query") t).
Proof.
  intros Hthrown Hbody.
  destruct thrown as [| |b|x|s|items|body|k]; try discriminate Hthrown;
    try reflexivity.
  destruct (Hbody body eq_refl) as [Hr Hm].
  unfold Api.recover. cbn [Js.get]. run_completion.
  unfold Js.get_prop. rewrite Hr, Hm. reflexivity.
Qed.

(** An object body without a [response] member: the [message] decides. *)
Lemma recover_message env t body :
  Js.own "response" body = None ->
  Api.recover env t (Js.JObj body) =
  Js.Normal (Api.failure (Js.or_else (Js.get_prop body "message")
                            (Js.JStr "Failed to process query")) t).
Proof.
  intros Hr. unfold Api.recover. cbn [Js.get]. run_completion.
  unfold Js.get_prop at 1. rewrite Hr. reflexivity.
Qed.

(** A rejected request: [postQuery] returns the failure object, and spells
    out which [error] it carries. *)
Lemma postQuery_rejected env transport t1 t2 req e :
  transport req = Api.Rejected e ->
  exists err,
    Api.postQuery env transport t1 t2 req = Js.Normal (Api.failure err t2) /\
    Js.truthy err = true /\
    (Reply.textual e -> Reply.nonempty_text err).
Proof.
  intros Hreply. unfold Api.postQuery, Api.post. rewrite Hreply.
  destruct (handleError_throws t1 e) as (thrown & -> & Htruthy & Hwhat).
  destruct (recover_returns env t2 thrown Htruthy) as (err & Herr & Herr_truthy).
  exists err. split; [exact Herr|]. split; [exact Herr_truthy|].
  intros Htext.
  assert (Hlit : Reply.nonempty_text (Js.JStr "Failed to process query")).
  { eexists. split; [reflexivity | discriminate]. }
  destruct Hwhat as [Hbody | ->].
  - unfold Reply.textual in Htext. rewrite Hbody in Htext.
    destruct thrown as [| |b|x|s|items|body|k];
      try (rewrite recover_fallback in Herr by (assumption || discriminate);
           injection Herr as <-; exact Hlit).
    destruct Htext as [Hr Hm].
    rewrite (recover_message env t2 body Hr) in Herr. injection Herr as <-.
    unfold Js.get_prop. destruct Hm as [-> | [s ->]].
    + exact Hlit.
    + unfold Js.or_else. cbn [Js.truthy].
      destruct (String.eqb_spec s "") as [->|Hs]; cbn [negb]; [exact Hlit|].
      exists s. now split.
  - rewrite recover_fallback in Herr.
    + injection Herr as <-. exact Hlit.
    + reflexivity.
    + intros body [= <-]. split; reflexivity.
Qed.

(** C3, as stated, fails: an error body whose [message] is a list makes
    [postQuery] return that list as [error], which is not a string. *)
Lemma listed_messages_returned_as_error :
  Api.postQuery Sample.engine
    (Sample.rejects "Request failed with status code 400" (Some Sample.listed_messages))
    "2026-01-01T00:00:00.000Z" "2026-01-01T00:00:00.001Z" (Sample.ask "toppers")
  = Js.Normal
      (Js.JObj [ ("error", Js.JArr [Js.JStr "query should not be empty"]);
                 ("condition", Js.JStr ""); ("results", Js.JArr []);
                 ("count", Js.JNum 0);
                 ("timestamp", Js.JStr "2026-01-01T00:00:00.001Z") ]) /\
  ~ Reply.nonempty_text (Js.JArr [Js.JStr "query should not be empty"]).
Proof.
  split; [reflexivity|]. intros [s [H _]]. discriminate H.
Qed.

(** C3, amended.  [postQuery] never throws: it returns a value for every
    settlement of the request.  When the request fails, that value is the
    object with [condition] the empty string, [results] the empty list,
    [count] 0 and a truthy [error]; the [error] is a non-empty string
    whenever the error body carries only text where it is looked up (no
    [response] member, [message] absent or a string), in particular for
    network failures and timeouts, which have no body. *)
Theorem postQuery_never_throws env transport t1 t2 req :
  (exists v, Api.postQuery env transport t1 t2 req = Js.Normal v) /\
  (forall e, transport req = Api.Rejected e ->
     exists err,
       Api.postQuery env transport t1 t2 req =
       Js.Normal
         (Js.JObj [ ("error", err); ("condition", Js.JStr "");
                    ("results", Js.JArr []); ("count", Js.JNum 0);
                    ("timestamp", Js.JStr t2) ]) /\
       Js.truthy err = true /\
       (Reply.textual e -> Reply.nonempty_text err)).
Proof.
  split.
  - destruct (transport req) as [d|e] eqn:Hreply.
    + exists d. unfold Api.postQuery, Api.post. now rewrite Hreply.
    + destruct (postQuery_rejected env transport t1 t2 req e Hreply)
        as (err & H & _). eauto.
  - intros e Hreply. exact (postQuery_rejected env transport t1 t2 req e Hreply).
Qed.

Lemma postQuery_never_throws_witness :
  let transport := Sample.rejects "timeout of 30000ms exceeded" None in
  let e := {| Api.message := "timeout of 30000ms exceeded";
              Api.response := None |} in
  transport (Sample.ask "toppers") = Api.Rejected e /\
  Reply.textual e /\
  exists err,
    Api.postQuery Sample.engine transport "t1" "t2" (Sample.ask "toppers") =
    Js.Normal (Api.failure err "t2") /\
    Js.truthy err = true /\
    (Reply.textual e -> Reply.nonempty_text err).
Proof.
  intros transport e.
  split; [reflexivity|]. split; [exact I|].
  exact (proj2 (postQuery_never_throws Sample.engine transport "t1" "t2"
                  (Sample.ask "toppers")) e eq_refl).
Defined.

(** C10, as stated, fails: a body with a [detail] and no [message] that
    also has a [response] member has its nested detail returned. *)
Lemma nested_detail_is_propagated :
  Js.own "detail" [ ("detail", Js.JStr "Query failed");
                    ("response", Js.JObj [("data", Js.JObj [("detail", Js.JStr "upstream timeout")])]) ]
    = Some (Js.JStr "Query failed") /\
  Js.own "message" [ ("detail", Js.JStr "Query failed");
                     ("response", Js.JObj [("data", Js.JObj [("detail", Js.JStr "upstream timeout")])]) ]
    = None /\
  Api.postQuery Sample.engine
    (Sample.rejects "Request failed with status code 502" (Some Sample.nested_detail))
    "t1" "t2" (Sample.ask "toppers")
  = Js.Normal (Api.failure (Js.JStr "upstream timeout") "t2") /\
  Api.failure (Js.JStr "upstream timeout") "t2"
    <> Api.failure (Js.JStr "Failed to process query") "t2".
Proof. repeat split. discriminate. Qed.

(** C10, amended.  When the server answers [/query] with an HTTP error
    whose JSON body has a [detail] member but neither a [message] nor a
    [response] member, [postQuery] resolves with [error] equal to the
    literal 'Failed to process query': the interceptor re-throws the body
    itself, the lookup of [error.response?.data] finds nothing, and the
    server's detail is not passed on. *)
Theorem detail_not_propagated env transport t1 t2 req e body detail :
  transport req = Api.Rejected e ->
  Api.response e = Some (Js.JObj body) ->
  Js.own "detail" body = Some detail ->
  Js.own "message" body = None ->
  Js.own "response" body = None ->
  Api.postQuery env transport t1 t2 req =
  Js.Normal
    (Js.JObj [ ("error", Js.JStr "Failed to process query");
               ("condition", Js.JStr ""); ("results", Js.JArr []);
               ("count", Js.JNum 0); ("timestamp", Js.JStr t2) ]).
Proof.
  intros Hreply Hbody _ Hmessage Hresponse.
  unfold Api.postQuery, Api.post, Api.handleError.
  rewrite Hreply, Hbody. cbn [Js.truthy].
  apply recover_fallback; [reflexivity|].
  intros body' [= <-]. now split.
Qed.

Lemma detail_not_propagated_witness :
  Api.postQuery Sample.engine
    (Sample.rejects "Request failed with status code 500" (Some Sample.plain_detail))
    "t1" "t2" (Sample.ask "toppers")
  = Js.Normal (Api.failure (Js.JStr "Failed to process query") "t2").
Proof.
  apply (detail_not_propagated Sample.engine
           (Sample.rejects "Request failed with status code 500"
              (Some Sample.plain_detail))
           "t1" "t2" (Sample.ask "toppers")
           {| Api.message := "Request failed with status code 500";
              Api.response := Some Sample.plain_detail |}
           [("detail", Js.JStr "Query failed")] (Js.JStr "Query failed"));
    reflexivity.
Defined.

(* ================================================================= *)
(** ** The chat panel                                                  *)
(* ================================================================= *)

Lemma get_failure_error env err t :
  Js.get env (Api.failure err t) "error" = Js.Normal err.
Proof. reflexivity. Qed.

(** C4.  When a submission is answered by a reply whose [error] is
    truthy, [handleSend] shows that error (as the panel's error and as an
    error message in the conversation) and leaves [results] and
    [condition] as they were; this covers every failed request, whose
    failure object is therefore not rendered as an empty result set.
    [results] or [condition] change only when the reply was read and its
    [error] was falsy. *)
Theorem error_reply_leaves_results env transport role session clock st :
  Js.truthy (Js.JStr (Js.trim env (Chat.input st))) = true ->
  let reply :=
    Api.postQuery env transport (Chat.t_intercept clock) (Chat.t_reply clock)
      (Chat.request role session st) in
  let st' := snd (Chat.handleSend env transport role session clock st) in
  (forall res err,
     reply = Js.Normal res ->
     Js.get env res "error" = Js.Normal err ->
     Js.truthy err = true ->
     Shown.results_kept st st' /\ Shown.error_shown env clock st st' err) /\
  (forall e,
     transport (Chat.request role session st) = Api.Rejected e ->
     exists err,
       Js.truthy err = true /\
       Shown.results_kept st st' /\ Shown.error_shown env clock st st' err) /\
  (~ Shown.results_kept st st' ->
   exists res err,
     reply = Js.Normal res /\
     Js.get env res "error" = Js.Normal err /\
     Js.truthy err = false).
Proof.
  intros Hinput reply st'.
  assert (Herror : forall res err,
    reply = Js.Normal res ->
    Js.get env res "error" = Js.Normal err ->
    Js.truthy err = true ->
    Shown.results_kept st st' /\ Shown.error_shown env clock st st' err).
  { intros res err Hres Herr Htruthy. subst st' reply.
    unfold Chat.handleSend. rewrite Hinput. cbn [negb snd].
    unfold Chat.attempt. rewrite Hres. run_completion.
    rewrite Herr, Htruthy.
    unfold Shown.results_kept, Shown.error_shown. cbn.
    repeat split. now rewrite <- app_assoc. }
  split; [exact Herror | split].
  - intros e Hreply.
    destruct (postQuery_rejected env transport (Chat.t_intercept clock)
                (Chat.t_reply clock) _ e Hreply) as (err & Hres & Htruthy & _).
    exists err. split; [exact Htruthy|].
    exact (Herror _ err Hres (get_failure_error env err _) Htruthy).
  - intros Hchanged. subst st'. revert Hchanged.
    unfold Chat.handleSend. rewrite Hinput. cbn [negb snd].
    unfold Chat.attempt. fold reply. run_completion.
    unfold Shown.results_kept.
    destruct reply as [res|thrown].
    + destruct (Js.get env res "error") as [err|thrown] eqn:Herr.
      * destruct (Js.truthy err) eqn:Htruthy.
        -- cbn. intros H. now elim H.
        -- intros _. now exists res, err.
      * unfold Chat.on_exception.
        destruct (Js.get env thrown "message"); cbn; intros H; now elim H.
    + unfold Chat.on_exception.
      destruct (Js.get env thrown "message"); cbn; intros H; now elim H.
Qed.

Lemma error_reply_leaves_results_witness :
  let transport := Sample.rejects "Network Error" None in
  let st := Sample.typing "who is the topper?" in
  let st' := snd (Chat.handleSend Sample.engine transport Sample.teacher
                    "session-1" Sample.clock st) in
  Js.truthy (Js.JStr (Js.trim Sample.engine (Chat.input st))) = true /\
  exists err,
    Js.truthy err = true /\
    Shown.results_kept st st' /\
    Shown.error_shown Sample.engine Sample.clock st st' err.
Proof.
  intros transport st st'.
  split; [reflexivity|].
  exact (proj1 (proj2 (error_reply_leaves_results Sample.engine transport
                         Sample.teacher "session-1" Sample.clock st eq_refl))
           {| Api.message := "Network Error"; Api.response := None |} eq_refl).
Defined.

(** C8.  The role sent with a query request is exactly [{grade,
    class_name}] read from the current role selection, next to the text
    and the session id; it does not depend on the text: two submissions
    under the same selection carry the same role, whatever was typed. *)
Theorem role_payload_is_the_selection env role :
  (forall transport session clock st req,
     fst (Chat.handleSend env transport role session clock st) = Some req ->
     Api.role req = {| Api.grade := Chat.grade role;
                       Api.class_name := Chat.class role |} /\
     Api.query req = Chat.input st /\
     Api.sessionId req = session) /\
  (forall transport1 transport2 session1 session2 clock1 clock2 st1 st2 req1 req2,
     fst (Chat.handleSend env transport1 role session1 clock1 st1) = Some req1 ->
     fst (Chat.handleSend env transport2 role session2 clock2 st2) = Some req2 ->
     Api.role req1 = Api.role req2).
Proof.
  assert (Hsent : forall transport session clock st req,
    fst (Chat.handleSend env transport role session clock st) = Some req ->
    req = Chat.request role session st).
  { intros transport session clock st req. unfold Chat.handleSend.
    destruct (negb _); cbn [fst]; [discriminate | congruence]. }
  split.
  - intros transport session clock st req H.
    rewrite (Hsent _ _ _ _ _ H). repeat split.
  - intros t1 t2 s1 s2 c1 c2 st1 st2 req1 req2 H1 H2.
    rewrite (Hsent _ _ _ _ _ H1), (Hsent _ _ _ _ _ H2). reflexivity.
Qed.

Lemma role_payload_is_the_selection_witness :
  let send text :=
    fst (Chat.handleSend Sample.engine (Sample.answers Js.JNull) Sample.teacher
           "session-1" Sample.clock (Sample.typing text)) in
  send "who is the topper?" = Some (Sample.ask "who is the topper?") /\
  send "show me grade 9, class C" = Some (Sample.ask "show me grade 9, class C") /\
  Api.role (Sample.ask "who is the topper?")
    = Api.role (Sample.ask "show me grade 9, class C").
Proof.
  intros send.
  split; [reflexivity|]. split; [reflexivity|].
  exact (proj2 (role_payload_is_the_selection Sample.engine Sample.teacher)
           _ _ _ _ _ _ _ _ _ _
           (eq_refl : send "who is the topper?" = Some _)
           (eq_refl : send "show me grade 9, class C" = Some _)).
Defined.

(* ================================================================= *)
(** ** The results table                                               *)
(* ================================================================= *)

Lemma length_insert_sorted {A : Type} (cmp : A -> A -> float) x l :
  length (ResultsPanel.insert_sorted cmp x l) = S (length l).
Proof.
  induction l as [|y l IH]; simpl; [reflexivity|].
  destruct (PrimFloat.ltb 0 (cmp y x)); simpl; [reflexivity | now rewrite IH].
Qed.

Lemma length_array_sort {A : Type} (cmp : A -> A -> float) l :
  length (ResultsPanel.array_sort cmp l) = length l.
Proof.
  unfold ResultsPanel.array_sort.
  assert (H : forall acc,
    length (fold_left (fun acc x => ResultsPanel.insert_sorted cmp x acc) l acc)
    = length l + length acc).
  { induction l as [|x l IH]; intros acc; simpl; [reflexivity|].
    rewrite IH, length_insert_sorted. lia. }
  rewrite H. simpl. lia.
Qed.

Lemma length_sortedResults env rs sortConfig :
  length (ResultsPanel.sortedResults env (Some rs) sortConfig) = length rs.
Proof.
  unfold ResultsPanel.sortedResults.
  destruct (ResultsPanel.key sortConfig) as [k|]; [|reflexivity].
  destruct rs as [|first rest]; [reflexivity|].
  destruct (String.eqb k ""); [reflexivity|].
  apply length_array_sort.
Qed.

Lemma number_rows_spec results hidden rs :
  forall i,
    map fst (ResultsPanel.number_rows results hidden i rs)
      = seq (i + 1) (length rs) /\
    map snd (ResultsPanel.number_rows results hidden i rs)
      = map (fun r => map (ResultsPanel.cell r)
                        (ResultsPanel.visibleHeaders results hidden)) rs.
Proof.
  induction rs as [|r rs IH]; intros i; simpl; [now split|].
  destruct (IH (S i)) as [H1 H2]. rewrite H1, H2.
  replace (S i + 1) with (S (i + 1)) by lia. now split.
Qed.

Lemma length_number_rows results hidden rs i :
  length (ResultsPanel.number_rows results hidden i rs) = length rs.
Proof.
  rewrite <- (length_map fst), (proj1 (number_rows_spec results hidden rs i)).
  apply length_seq.
Qed.

(** C5.  Whenever the panel shows a table, the count in its header and
    both counts in its footer equal the number of rows in the table body,
    which is the number of rows received, under every sort setting and
    column selection. *)
Theorem shown_count_is_row_count env results sortConfig hidden t :
  ResultsPanel.render env results sortConfig hidden = ResultsPanel.ResultsTable t ->
  ResultsPanel.found t = length (ResultsPanel.body t) /\
  ResultsPanel.showing t
    = (length (ResultsPanel.body t), length (ResultsPanel.body t)) /\
  exists rs, results = Some rs /\ length (ResultsPanel.body t) = length rs.
Proof.
  unfold ResultsPanel.render.
  destruct results as [[|first rest]|]; try discriminate.
  intros [= <-]. cbn [ResultsPanel.found ResultsPanel.body ResultsPanel.showing].
  rewrite length_number_rows. repeat split.
  eexists. split; [reflexivity|]. apply length_sortedResults.
Qed.

Lemma shown_count_is_row_count_witness :
  exists t,
    ResultsPanel.render Sample.engine (Some Sample.three_rows)
      {| ResultsPanel.key := Some "quiz_score";
         ResultsPanel.direction := ResultsPanel.desc |}
      {[ "grade" ]} = ResultsPanel.ResultsTable t /\
    ResultsPanel.found t = 3 /\ length (ResultsPanel.body t) = 3 /\
    ResultsPanel.found t = length (ResultsPanel.body t).
Proof.
  eexists. split; [reflexivity|]. split; [reflexivity|]. split; [reflexivity|].
  exact (proj1 (shown_count_is_row_count Sample.engine (Some Sample.three_rows)
                  {| ResultsPanel.key := Some "quiz_score";
                     ResultsPanel.direction := ResultsPanel.desc |}
                  {[ "grade" ]} _ eq_refl)).
Defined.

(** C6.  With no sort column selected ([key] is [null], as initially), the
    rows shown are the rows received, in the order received: row [i] of
    the table body is numbered [i] and shows the cells of the [i]-th
    received row.  The outcome is a function of the row list alone (the
    unused direction has no influence), so the same list renders the same
    way every time. *)
Theorem unsorted_rows_keep_received_order env (rs : list ResultsPanel.row)
  direction hidden :
  let unsorted := {| ResultsPanel.key := None;
                     ResultsPanel.direction := direction |} in
  ResultsPanel.sortedResults env (Some rs) unsorted = rs /\
  ResultsPanel.render env (Some rs) unsorted hidden
    = ResultsPanel.render env (Some rs) ResultsPanel.initialSort hidden /\
  match ResultsPanel.render env (Some rs) unsorted hidden with
  | ResultsPanel.NoResults => rs = []
  | ResultsPanel.ResultsTable t =>
      map fst (ResultsPanel.body t) = seq 1 (length rs) /\
      map snd (ResultsPanel.body t)
        = map (fun r => map (ResultsPanel.cell r)
                          (ResultsPanel.visibleHeaders (Some rs) hidden)) rs
  end.
Proof.
  intros unsorted.
  assert (Hsame : forall d,
    ResultsPanel.sortedResults env (Some rs)
      {| ResultsPanel.key := None; ResultsPanel.direction := d |} = rs).
  { reflexivity. }
  split; [apply Hsame | split].
  - unfold ResultsPanel.render, ResultsPanel.initialSort, unsorted.
    now rewrite !Hsame.
  - unfold ResultsPanel.render. destruct rs as [|first rest]; [reflexivity|].
    cbn [ResultsPanel.body]. unfold unsorted. rewrite Hsame.
    apply (number_rows_spec (Some (first :: rest)) hidden (first :: rest) 0).
Qed.

(** C9.  For a non-empty row list the columns on offer (the visibility
    buttons) are exactly the keys of the first row, the header cells are
    those of them that are not hidden, and a key found only in later rows
    is never a column; for an empty or missing row list the panel shows
    its empty state, with no table and no headers. *)
Theorem columns_are_first_row_keys env sortConfig hidden :
  (forall (first : ResultsPanel.row) rest,
     exists t,
       ResultsPanel.render env (Some (first :: rest)) sortConfig hidden
         = ResultsPanel.ResultsTable t /\
       ResultsPanel.toggles t = Js.keys first /\
       ResultsPanel.columns t
         = List.filter (fun h => negb (bool_decide (h ∈ hidden))) (Js.keys first) /\
       (hidden = ∅ -> ResultsPanel.columns t = Js.keys first) /\
       (forall k, ~ In k (Js.keys first) ->
          ~ In k (ResultsPanel.toggles t) /\ ~ In k (ResultsPanel.columns t))) /\
  ResultsPanel.render env (Some []) sortConfig hidden = ResultsPanel.NoResults /\
  ResultsPanel.render env None sortConfig hidden = ResultsPanel.NoResults /\
  ResultsPanel.headers (Some []) = [] /\
  ResultsPanel.headers None = [].
Proof.
  split; [|repeat split].
  intros first rest. eexists. split; [reflexivity|].
  cbn [ResultsPanel.toggles ResultsPanel.columns].
  unfold ResultsPanel.visibleHeaders, ResultsPanel.headers.
  split; [reflexivity|]. split; [reflexivity|]. split.
  - intros ->. induction (Js.keys first) as [|k ks IH]; [reflexivity|].
    cbn [List.filter]. rewrite bool_decide_eq_false_2 by set_solver.
    cbn [negb]. now rewrite IH.
  - intros k Hk. split; [exact Hk|].
    intros Hin. apply filter_In in Hin. tauto.
Qed.

Lemma columns_are_first_row_keys_witness :
  ~ In "remarks" (Js.keys (Sample.student "Asha" 8 "A" 80)) /\
  exists t,
    ResultsPanel.render Sample.engine (Some Sample.extra_key_later)
      ResultsPanel.initialSort ∅ = ResultsPanel.ResultsTable t /\
    ResultsPanel.columns t = ["student_name"; "grade"; "class"; "quiz_score"] /\
    ~ In "remarks" (ResultsPanel.columns t).
Proof.
  assert (Hfresh : ~ In "remarks" (Js.keys (Sample.student "Asha" 8 "A" 80))).
  { cbn. intros [H|[H|[H|[H|[]]]]]; discriminate H. }
  split; [exact Hfresh|].
  destruct (proj1 (columns_are_first_row_keys Sample.engine
                     ResultsPanel.initialSort ∅)
              (Sample.student "Asha" 8 "A" 80)
              [Sample.student "Bala" 8 "A" 90 ++ [("remarks", Js.JStr "late submission")]])
    as (t & Hrender & _ & _ & Hall & Honly).
  exists t. split; [exact Hrender|]. split; [exact (Hall eq_refl)|].
  exact (proj2 (Honly "remarks" Hfresh)).
Defined.

(* ================================================================= *)
(** ** Scope containment in the core                                  *)
(* ================================================================= *)

Lemma select_sound f dataset :
  forall kept,
    Core.select f dataset = Some kept ->
    List.Forall (fun r => Core.eval_filter f r = Some true) kept.
Proof.
  induction dataset as [|r rest IH]; simpl; intros kept.
  - intros [= <-]. constructor.
  - destruct (Core.eval_filter f r) as [[|]|] eqn:Hr; [| |discriminate];
      destruct (Core.select f rest) as [kept'|]; try discriminate;
      intros [= <-]; [constructor|]; auto.
Qed.

Lemma eval_And_true a b r :
  Core.eval_filter (Core.And a b) r = Some true ->
  Core.eval_filter a r = Some true /\ Core.eval_filter b r = Some true.
Proof.
  simpl. destruct (Core.eval_filter a r) as [[|]|]; intros H;
    (discriminate H || now split).
Qed.

(** A row passes the conjoined filter only inside the role's bounds. *)
Lemma conjoin_in_pool s f r :
  Core.eval_filter (Core.conjoin s f) r = Some true -> Core.in_pool s r = true.
Proof.
  unfold Core.conjoin, Core.in_pool.
  destruct (Core.scope_class s) as [c|]; destruct (Core.scope_grade s) as [g|];
    intros H;
    repeat match goal with
    | H : Core.eval_filter (Core.And _ _) _ = Some true |- _ =>
        apply eval_And_true in H; destruct H
    end;
    repeat match goal with
    | H : Core.eval_filter (Core.Atom _) _ = Some true |- _ =>
        cbn in H; injection H as H
    end;
    repeat match goal with
    | H : _ = true |- _ => rewrite H
    end; reflexivity.
Qed.

Lemma in_pool_clamp s pool r :
  Core.in_pool (Core.clamp s pool) r = true ->
  (forall g, Core.scope_grade s = Some g -> Core.grade r = g) /\
  (forall c, Core.scope_class s = Some c -> Core.class_name r = c).
Proof.
  unfold Core.in_pool, Core.clamp. cbn [Core.scope_grade Core.scope_class].
  intros H. apply andb_true_iff in H as [Hg Hc]. split.
  - intros g E. rewrite E in Hg. now apply Z.eqb_eq.
  - intros c E. rewrite E in Hc. now apply String.eqb_eq.
Qed.

Lemma in_pool_bounds s r :
  Core.in_pool s r = true ->
  (forall g, Core.scope_grade s = Some g -> Core.grade r = g) /\
  (forall c, Core.scope_class s = Some c -> Core.class_name r = c).
Proof.
  unfold Core.in_pool. intros H. apply andb_true_iff in H as [Hg Hc]. split.
  - intros g E. rewrite E in Hg. now apply Z.eqb_eq.
  - intros c E. rewrite E in Hc. now apply String.eqb_eq.
Qed.

Lemma rank_in_pool spec pool dataset ranked :
  Core.rank spec pool dataset = Some ranked ->
  List.Forall (fun r => Core.in_pool pool r = true) ranked.
Proof.
  unfold Core.rank.
  assert (Hpool : forall r,
    In r (List.filter (Core.in_pool pool) dataset) -> Core.in_pool pool r = true).
  { intros r Hr. now apply filter_In in Hr. }
  revert Hpool. generalize (List.filter (Core.in_pool pool) dataset).
  intros candidates Hpool Hrank. apply List.Forall_forall. intros r Hr.
  apply Hpool. destruct candidates as [|first others].
  - injection Hrank as <-. destruct Hr.
  - destruct (Core.numeric (Core.rank_field spec)) as [score|]; [|discriminate].
    match type of Hrank with
    | Some ?l = _ => assert (E : l = ranked) by congruence
    end.
    rewrite <- E in Hr. now apply filter_In in Hr.
Qed.

(** C1.  Whatever the query text and whatever Condition the translator
    proposes for it, every row the pipeline returns lies inside the role's
    scope: its grade is the scope's grade when that is not "any", and its
    class is the scope's class when that is not "any". *)
Theorem scope_containment translate dataset text scope result :
  Core.resolve translate dataset text scope = inr result ->
  (forall g, Core.scope_grade scope = Some g ->
     List.Forall (fun r => Core.grade r = g) (Core.rows result)) /\
  (forall c, Core.scope_class scope = Some c ->
     List.Forall (fun r => Core.class_name r = c) (Core.rows result)).
Proof.
  unfold Core.resolve, Core.evaluate, Core.enforce.
  destruct (translate text scope) as [e|[f|spec pool]]; [discriminate| |].
  - destruct (Core.select _ dataset) as [kept|] eqn:Hsel; [|discriminate].
    intros [= <-]. cbn [Core.rows].
    apply select_sound in Hsel.
    split; intros x Hx; eapply List.Forall_impl; try exact Hsel;
      intros r Hr; apply conjoin_in_pool, in_pool_bounds in Hr;
      destruct Hr as [Hg Hc]; auto.
  - destruct (Core.rank _ _ dataset) as [ranked|] eqn:Hrank; [|discriminate].
    intros [= <-]. cbn [Core.rows].
    apply rank_in_pool in Hrank.
    split; intros x Hx; eapply List.Forall_impl; try exact Hrank;
      intros r Hr; apply in_pool_clamp in Hr; destruct Hr as [Hg Hc]; auto.
Qed.

Lemma scope_containment_witness :
  exists result,
    Core.resolve Sample.adversary Sample.school "everyone in grade 8"
      Sample.grade7 = inr result /\
    Core.scope_grade Sample.grade7 = Some 7%Z /\
    List.Forall (fun r => Core.grade r = 7%Z) (Core.rows result).
Proof.
  eexists. split; [reflexivity|]. split; [reflexivity|].
  exact (proj1 (scope_containment Sample.adversary Sample.school
                  "everyone in grade 8" Sample.grade7 _ eq_refl) 7%Z eq_refl).
Defined.

(* ================================================================= *)
(** ** Further facts: the chat panel's branches                       *)
(* ================================================================= *)

Lemma postQuery_returns env transport t1 t2 req :
  exists res, Api.postQuery env transport t1 t2 req = Js.Normal res /\
    (Js.nullish res = true ->
     exists d, transport req = Api.Fulfilled d /\ res = d).
Proof.
  destruct (transport req) as [d|e] eqn:Hreply.
  - exists d. unfold Api.postQuery, Api.post. rewrite Hreply. eauto.
  - destruct (postQuery_rejected env transport t1 t2 req e Hreply)
      as (err & H & _).
    exists (Api.failure err t2). split; [exact H | discriminate].
Qed.

Lemma get_throws_iff_nullish env v k :
  (exists e, Js.get env v k = Js.Throw e) <-> Js.nullish v = true.
Proof.
  destruct v; cbn; split; intros H; try discriminate; try (destruct H; discriminate);
    eauto.
Qed.

(** The [try] block of [handleSend] either completes or throws the
    [TypeError] of reading [error] from a null reply. *)
Lemma attempt_cases env transport role session clock st :
  (exists st', Chat.attempt env transport role session clock st = Js.Normal st') \/
  (Chat.attempt env transport role session clock st = Js.Throw (Js.TypeError env) /\
   exists d, transport (Chat.request role session st) = Api.Fulfilled d /\
             Js.nullish d = true).
Proof.
  unfold Chat.attempt. run_completion.
  destruct (postQuery_returns env transport (Chat.t_intercept clock)
              (Chat.t_reply clock) (Chat.request role session st))
    as (res & -> & Hnull).
  destruct res as [| |b|x|s|items|o|k];
    try (right; split; [reflexivity | destruct (Hnull eq_refl) as (d & Hd & <-); eauto]);
    left; cbn [Js.get];
    match goal with
    | |- context [Js.truthy ?e] => destruct (Js.truthy e)
    end; eauto.
Qed.

(** X1.  [handleSend] does nothing for an input that trims to the empty
    string.  Otherwise it sends one request carrying the typed text, and
    when its promise settles the input is cleared, [loading] is false and
    the conversation has grown by exactly the user's message followed by
    one bot message; the [catch] clause never fails in turn. *)
Theorem handleSend_appends_message_and_reply env transport role session clock st :
  let outcome := Chat.handleSend env transport role session clock st in
  (Js.truthy (Js.JStr (Js.trim env (Chat.input st))) = false ->
   outcome = (None, st)) /\
  (Js.truthy (Js.JStr (Js.trim env (Chat.input st))) = true ->
   fst outcome = Some (Chat.request role session st) /\
   Chat.input (snd outcome) = "" /\
   Chat.loading (snd outcome) = false /\
   exists bot,
     Chat.messages (snd outcome) =
       Chat.messages st ++
       [ {| Chat.sender := "user"; Chat.text := Chat.input st;
            Chat.timestamp := Chat.t_user clock;
            Chat.isError := false; Chat.count := None |}; bot ] /\
     Chat.sender bot = "bot" /\
     Chat.timestamp bot = Chat.t_bot clock).
Proof.
  intros outcome. subst outcome. unfold Chat.handleSend. split; intros ->.
  - reflexivity.
  - cbn [negb fst snd]. split; [reflexivity|].
    destruct (attempt_cases env transport role session clock st)
      as [[st' Hst'] | [Hthrow _]].
    + rewrite Hst'. revert Hst'. unfold Chat.attempt. run_completion.
      destruct (Api.postQuery _ _ _ _ _) as [res|]; [|discriminate].
      destruct (Js.get env res "error") as [err|]; [|discriminate].
      destruct (Js.truthy err).
      * intros [= <-]. cbn. repeat split.
        eexists. rewrite <- app_assoc. repeat split.
      * destruct (Js.get env res "condition") as [c|]; [|discriminate].
        destruct (Js.get env res "results") as [rs|]; [|discriminate].
        destruct (Js.get env res "count") as [n|]; [|discriminate].
        intros [= <-]. cbn. repeat split.
        eexists. rewrite <- app_assoc. repeat split.
    + rewrite Hthrow. cbn. repeat split.
      eexists. rewrite <- app_assoc. repeat split.
Qed.

Lemma handleSend_appends_message_and_reply_witness :
  let outcome :=
    Chat.handleSend Sample.engine (Sample.answers Js.JNull) Sample.teacher
      "session-1" Sample.clock (Sample.typing "  toppers ") in
  fst outcome = Some (Sample.ask "  toppers ") /\
  Chat.loading (snd outcome) = false /\
  Chat.handleSend Sample.engine (Sample.answers Js.JNull) Sample.teacher
    "session-1" Sample.clock (Sample.typing "   ")
  = (None, Sample.typing "   ").
Proof.
  intros outcome.
  pose proof (handleSend_appends_message_and_reply Sample.engine
                (Sample.answers Js.JNull) Sample.teacher "session-1"
                Sample.clock (Sample.typing "  toppers ")) as [_ Hsent].
  pose proof (handleSend_appends_message_and_reply Sample.engine
                (Sample.answers Js.JNull) Sample.teacher "session-1"
                Sample.clock (Sample.typing "   ")) as [Hblank _].
  destruct (Hsent eq_refl) as (H1 & _ & H3 & _).
  split; [exact H1|]. split; [exact H3|]. exact (Hblank eq_refl).
Defined.

(** X2.  When the request fails without a usable response body (network
    failure, timeout, empty body), the chat shows exactly
    'Failed to process query': the message axios reports, and the
    'Network error' text that [handleError] prepares, never reach the
    user; [results] and [condition] stay. *)
Theorem transport_failure_shows_fallback env transport role session clock st e :
  Js.truthy (Js.JStr (Js.trim env (Chat.input st))) = true ->
  transport (Chat.request role session st) = Api.Rejected e ->
  Js.truthy match Api.response e with Some d => d | None => Js.JUndefined end
    = false ->
  let st' := snd (Chat.handleSend env transport role session clock st) in
  Shown.results_kept st st' /\
  Shown.error_shown env clock st st' (Js.JStr "Failed to process query").
Proof.
  intros Hinput Hreply Hbody st'. subst st'.
  unfold Chat.handleSend. rewrite Hinput. cbn [negb snd].
  unfold Chat.attempt, Api.postQuery, Api.post, Api.handleError.
  rewrite Hreply, Hbody. run_completion.
  rewrite recover_fallback;
    [| reflexivity | intros body [= <-]; split; reflexivity].
  cbn. unfold Shown.results_kept, Shown.error_shown. cbn.
  repeat split. now rewrite <- app_assoc.
Qed.

Lemma transport_failure_shows_fallback_witness :
  let st := Sample.typing "who is the topper?" in
  let st' := snd (Chat.handleSend Sample.engine
                    (Sample.rejects "timeout of 30000ms exceeded" None)
                    Sample.teacher "session-1" Sample.clock st) in
  Chat.error st' = Js.JStr "Failed to process query" /\
  Shown.results_kept st st'.
Proof.
  intros st st'.
  destruct (transport_failure_shows_fallback Sample.engine
              (Sample.rejects "timeout of 30000ms exceeded" None)
              Sample.teacher "session-1" Sample.clock st
              {| Api.message := "timeout of 30000ms exceeded";
                 Api.response := None |} eq_refl eq_refl eq_refl)
    as [Hkept [Herr _]].
  split; [exact Herr | exact Hkept].
Defined.

(** X3.  The [catch] clause of [handleSend] runs exactly when the server
    answers with success and a body that is [null] or [undefined]: the
    error line then shows the [TypeError]'s message ('Network error' if
    that is empty), the conversation gets the network-error notice, and
    [results] and [condition] stay. *)
Theorem null_reply_reaches_catch env transport role session clock st :
  ((exists err,
      Chat.attempt env transport role session clock st = Js.Throw err) <->
   (exists d, transport (Chat.request role session st) = Api.Fulfilled d /\
              Js.nullish d = true)) /\
  (forall d,
     Js.truthy (Js.JStr (Js.trim env (Chat.input st))) = true ->
     transport (Chat.request role session st) = Api.Fulfilled d ->
     Js.nullish d = true ->
     let st' := snd (Chat.handleSend env transport role session clock st) in
     Shown.results_kept st st' /\
     Chat.error st' =
       Js.or_else (Js.JStr (Js.typeErrorMessage env)) (Js.JStr "Network error") /\
     Chat.messages st' =
       Chat.messages st ++
       [ {| Chat.sender := "user"; Chat.text := Chat.input st;
            Chat.timestamp := Chat.t_user clock;
            Chat.isError := false; Chat.count := None |};
         {| Chat.sender := "bot";
            Chat.text := "⚠️ Network error - Please try again";
            Chat.timestamp := Chat.t_bot clock;
            Chat.isError := true; Chat.count := None |} ]).
Proof.
  assert (Hnull : forall d,
    transport (Chat.request role session st) = Api.Fulfilled d ->
    Js.nullish d = true ->
    Chat.attempt env transport role session clock st = Js.Throw (Js.TypeError env)).
  { intros d Hreply Hd. unfold Chat.attempt, Api.postQuery, Api.post.
    rewrite Hreply. run_completion. destruct d; try discriminate Hd; reflexivity. }
  split.
  - split.
    + intros [err Herr].
      destruct (attempt_cases env transport role session clock st)
        as [[st' Hst'] | [_ Hd]]; [congruence | exact Hd].
    + intros (d & Hreply & Hd). eauto.
  - intros d Hinput Hreply Hd st'. subst st'.
    unfold Chat.handleSend. rewrite Hinput. cbn [negb snd].
    rewrite (Hnull d Hreply Hd). cbn.
    unfold Shown.results_kept. cbn. repeat split. now rewrite <- app_assoc.
Qed.

Lemma null_reply_reaches_catch_witness :
  let st := Sample.typing "who is the topper?" in
  let st' := snd (Chat.handleSend Sample.engine (Sample.answers Js.JNull)
                    Sample.teacher "session-1" Sample.clock st) in
  Chat.error st' = Js.JStr "Cannot read properties of null" /\
  Shown.results_kept st st'.
Proof.
  intros st st'.
  destruct (proj2 (null_reply_reaches_catch Sample.engine (Sample.answers Js.JNull)
                     Sample.teacher "session-1" Sample.clock st)
              Js.JNull eq_refl eq_refl eq_refl) as (Hkept & Herr & _).
  split; [exact Herr | exact Hkept].
Defined.

(** X4.  A reply whose [error] is falsy is taken as a result set: the
    error line is cleared, [condition] becomes [res.condition || ''],
    [results] becomes [res.results || []], and the bot message carries
    [res.count].  Whatever the outcome of a submission, a [results] state
    that was truthy (an array) is truthy afterwards, so the views never
    receive a missing row list. *)
Theorem successful_reply_replaces_results env transport role session clock st :
  let st' := snd (Chat.handleSend env transport role session clock st) in
  (forall res err,
     Js.truthy (Js.JStr (Js.trim env (Chat.input st))) = true ->
     Api.postQuery env transport (Chat.t_intercept clock) (Chat.t_reply clock)
       (Chat.request role session st) = Js.Normal res ->
     Js.get env res "error" = Js.Normal err ->
     Js.truthy err = false ->
     exists c rs n,
       Js.get env res "condition" = Js.Normal c /\
       Js.get env res "results" = Js.Normal rs /\
       Js.get env res "count" = Js.Normal n /\
       Chat.error st' = Js.JStr "" /\
       Chat.condition st' = Js.or_else c (Js.JStr "") /\
       Chat.results st' = Js.or_else rs (Js.JArr []) /\
       exists bot, last (Chat.messages st') = Some bot /\
                   Chat.isError bot = false /\ Chat.count bot = Some n) /\
  (Js.truthy (Chat.results st) = true -> Js.truthy (Chat.results st') = true).
Proof.
  intros st'. subst st'. split.
  - intros res err Hinput Hres Herr Hfalsy.
    unfold Chat.handleSend. rewrite Hinput. cbn [negb snd].
    unfold Chat.attempt. rewrite Hres. run_completion. rewrite Herr, Hfalsy.
    assert (Hobj : Js.nullish res = false).
    { destruct res; try reflexivity; discriminate Herr. }
    assert (Hget : forall k, exists v, Js.get env res k = Js.Normal v).
    { intros k. destruct res; try discriminate Hobj; cbn; eauto. }
    destruct (Hget "condition") as [c Hc], (Hget "results") as [rs Hrs],
      (Hget "count") as [n Hn].
    rewrite Hc, Hrs, Hn. exists c, rs, n. cbn. repeat split.
    eexists. split; [apply last_snoc|]. split; reflexivity.
  - intros Hkept. unfold Chat.handleSend.
    destruct (negb _); [exact Hkept|]. cbn [snd].
    destruct (attempt_cases env transport role session clock st)
      as [[st' Hst'] | [Hthrow _]].
    + rewrite Hst'. revert Hst'. unfold Chat.attempt. run_completion.
      destruct (Api.postQuery _ _ _ _ _) as [res|]; [|discriminate].
      destruct (Js.get env res "error") as [err|]; [|discriminate].
      destruct (Js.truthy err).
      * intros [= <-]. exact Hkept.
      * destruct (Js.get env res "condition") as [c|]; [|discriminate].
        destruct (Js.get env res "results") as [rs|]; [|discriminate].
        destruct (Js.get env res "count") as [n|]; [|discriminate].
        intros [= <-]. cbn. now apply or_else_truthy.
    + rewrite Hthrow. exact Hkept.
Qed.

Lemma successful_reply_replaces_results_witness :
  let reply :=
    Js.JObj [ ("condition", Js.JStr "grade == 8");
              ("results", Js.JArr [Js.JObj (Sample.student "Asha" 8 "A" 80)]);
              ("count", Js.JNum 1) ] in
  let st := Sample.typing "grade 8" in
  let st' := snd (Chat.handleSend Sample.engine (Sample.answers reply)
                    Sample.teacher "session-1" Sample.clock st) in
  Chat.results st' = Js.JArr [Js.JObj (Sample.student "Asha" 8 "A" 80)] /\
  Js.truthy (Chat.results st') = true.
Proof.
  intros reply st st'.
  pose proof (successful_reply_replaces_results Sample.engine
                (Sample.answers reply) Sample.teacher "session-1"
                Sample.clock st) as [Hok Htruthy].
  destruct (Hok reply Js.JUndefined eq_refl eq_refl eq_refl eq_refl)
    as (c & rs & n & _ & Hrs & _ & _ & _ & Hresults & _).
  split; [|exact (Htruthy eq_refl)].
  injection Hrs as <-. exact Hresults.
Defined.

(* ================================================================= *)
(** ** Further facts: the API service layer                           *)
(* ================================================================= *)

(** X5.  For error bodies that are objects without a [response] member,
    the [error] that [postQuery] returns is decided by the body's
    [message] alone: two such bodies with the same [message] (or both
    without one) give the same result, whatever their [detail], [error] or
    other members, and whatever axios reported as its own message. *)
Theorem postQuery_error_decided_by_message env t2
  transport1 transport2 t1 t1' req1 req2 e1 e2 body1 body2 :
  transport1 req1 = Api.Rejected e1 ->
  transport2 req2 = Api.Rejected e2 ->
  Api.response e1 = Some (Js.JObj body1) ->
  Api.response e2 = Some (Js.JObj body2) ->
  Js.own "response" body1 = None ->
  Js.own "response" body2 = None ->
  Js.own "message" body1 = Js.own "message" body2 ->
  Api.postQuery env transport1 t1 t2 req1 = Api.postQuery env transport2 t1' t2 req2.
Proof.
  intros H1 H2 B1 B2 R1 R2 Hm.
  unfold Api.postQuery, Api.post, Api.handleError.
  rewrite H1, H2, B1, B2. cbn [Js.truthy].
  rewrite (recover_message env t2 body1 R1), (recover_message env t2 body2 R2).
  unfold Js.get_prop. now rewrite Hm.
Qed.

Lemma postQuery_error_decided_by_message_witness :
  Api.postQuery Sample.engine
    (Sample.rejects "Request failed with status code 500" (Some Sample.plain_detail))
    "t1" "t2" (Sample.ask "toppers")
  = Api.postQuery Sample.engine
      (Sample.rejects "Request failed with status code 422"
         (Some (Js.JObj [("detail", Js.JArr []); ("error", Js.JStr "Unprocessable")])))
      "t3" "t2" (Sample.ask "grade 9").
Proof.
  apply (postQuery_error_decided_by_message Sample.engine "t2" _ _ "t1" "t3" _ _
           {| Api.message := "Request failed with status code 500";
              Api.response := Some Sample.plain_detail |}
           {| Api.message := "Request failed with status code 422";
              Api.response :=
                Some (Js.JObj [("detail", Js.JArr []); ("error", Js.JStr "Unprocessable")]) |}
           [("detail", Js.JStr "Query failed")]
           [("detail", Js.JArr []); ("error", Js.JStr "Unprocessable")]);
    reflexivity.
Defined.

(** What [getStats] and [getHealth] make of a settled request. *)
Lemma wrapped_settles env fetch fallback t1 t2 path :
  (exists d, fetch path = Api.Fulfilled d /\
     Api.wrapped env fetch fallback t1 t2 path = Js.Normal (Api.succeeded d t2)) \/
  (exists e thrown,
     fetch path = Api.Rejected e /\
     Api.handleError t1 e = Js.Throw thrown /\
     Api.wrapped env fetch fallback t1 t2 path =
       Js.Normal (Api.errored
                    (Js.or_else match thrown with
                                | Js.JObj o => Js.get_prop o "error"
                                | _ => Js.JUndefined
                                end (Js.JStr fallback)) t2)).
Proof.
  unfold Api.wrapped, Api.request_get.
  destruct (fetch path) as [d|e]; [left; eauto|].
  right. destruct (handleError_throws t1 e) as (thrown & Hthrow & Htruthy & _).
  exists e, thrown. split; [reflexivity|]. split; [exact Hthrow|].
  rewrite Hthrow. run_completion.
  destruct thrown; try discriminate Htruthy; reflexivity.
Qed.

Lemma wrapped_never_throws env fetch fallback t1 t2 path :
  fallback <> "" ->
  (exists d, fetch path = Api.Fulfilled d /\
     Api.wrapped env fetch fallback t1 t2 path = Js.Normal (Api.succeeded d t2)) \/
  (exists e err, fetch path = Api.Rejected e /\ Js.truthy err = true /\
     Api.wrapped env fetch fallback t1 t2 path = Js.Normal (Api.errored err t2)).
Proof.
  intros Hfallback.
  destruct (wrapped_settles env fetch fallback t1 t2 path)
    as [(d & Hd & Hr) | (e & thrown & He & _ & Hr)]; [left; eauto|].
  right. eexists _, _. split; [exact He|]. split; [|exact Hr].
  apply or_else_truthy. cbn.
  destruct (String.eqb_spec fallback ""); [contradiction | reflexivity].
Qed.

(** X6.  [getStats] and [getHealth] never throw.  A fulfilled request
    yields [{data, status: 'success', timestamp}] with the response data
    untouched; a failed one yields [{error, status: 'error', timestamp}]
    with a truthy [error]. *)
Theorem getStats_getHealth_never_throw env fetch t1 t2 grade classId :
  let settles (path : string) (r : Js.completion Js.value) :=
    (exists d, fetch path = Api.Fulfilled d /\
       r = Js.Normal (Js.JObj [ ("data", d); ("status", Js.JStr "success");
                                ("timestamp", Js.JStr t2) ])) \/
    (exists e err, fetch path = Api.Rejected e /\ Js.truthy err = true /\
       r = Js.Normal (Js.JObj [ ("error", err); ("status", Js.JStr "error");
                                ("timestamp", Js.JStr t2) ])) in
  settles (Api.stats_path env grade classId)
          (Api.getStats env fetch t1 t2 grade classId) /\
  settles "/health" (Api.getHealth env fetch t1 t2).
Proof.
  intros settles. split.
  - apply (wrapped_never_throws env fetch "Failed to fetch statistics").
    discriminate.
  - apply (wrapped_never_throws env fetch "Health check failed").
    discriminate.
Qed.

(** X7.  Unlike [postQuery], [getStats] and [getHealth] read the [error]
    member of what was thrown.  Without a usable response body they
    therefore report the message of the transport error ('Network error'
    when that is empty); with an object body they report its [error]
    member when truthy and their own fallback text otherwise, so a
    [detail] sent by the server is dropped. *)
Theorem getStats_error_source env fetch t1 t2 grade classId e :
  fetch (Api.stats_path env grade classId) = Api.Rejected e ->
  (Js.truthy match Api.response e with Some d => d | None => Js.JUndefined end
     = false ->
   Api.getStats env fetch t1 t2 grade classId =
   Js.Normal (Api.errored
                (Js.JStr (if String.eqb (Api.message e) "" then "Network error"
                          else Api.message e)) t2)) /\
  (forall body,
     Api.response e = Some (Js.JObj body) ->
     Api.getStats env fetch t1 t2 grade classId =
     Js.Normal (Api.errored
                  (Js.or_else (Js.get_prop body "error")
                     (Js.JStr "Failed to fetch statistics")) t2)).
Proof.
  intros Hreply. unfold Api.getStats, Api.wrapped, Api.request_get.
  rewrite Hreply. unfold Api.handleError. split.
  - intros ->. run_completion. cbn.
    unfold Js.or_else. cbn.
    destruct (String.eqb (Api.message e) "") eqn:E; cbn; rewrite ?E; reflexivity.
  - intros body ->. reflexivity.
Qed.

Lemma getStats_error_source_witness :
  Api.getStats Sample.engine
    (fun _ => Api.Rejected {| Api.message := "Network Error"; Api.response := None |})
    "t1" "t2" (Js.JNum 8) Js.JNull
  = Js.Normal (Api.errored (Js.JStr "Network Error") "t2") /\
  Api.getStats Sample.engine
    (fun _ => Api.Rejected {| Api.message := "Request failed with status code 500";
                              Api.response := Some Sample.plain_detail |})
    "t1" "t2" (Js.JNum 8) Js.JNull
  = Js.Normal (Api.errored (Js.JStr "Failed to fetch statistics") "t2").
Proof.
  split.
  - exact (proj1 (getStats_error_source Sample.engine _ "t1" "t2" (Js.JNum 8) Js.JNull
                    {| Api.message := "Network Error"; Api.response := None |}
                    eq_refl) eq_refl).
  - exact (proj2 (getStats_error_source Sample.engine _ "t1" "t2" (Js.JNum 8) Js.JNull
                    {| Api.message := "Request failed with status code 500";
                       Api.response := Some Sample.plain_detail |}
                    eq_refl) [("detail", Js.JStr "Query failed")] eq_refl).
Defined.

(** Form encoding never produces a separator. *)
Lemma form_encode_hex_safe c :
  Js.form_safe (Js.hex_digit (N_of_ascii c / 16)) = true /\
  Js.form_safe (Js.hex_digit (N_of_ascii c mod 16)) = true.
Proof.
  destruct c as [b0 b1 b2 b3 b4 b5 b6 b7].
  destruct b0, b1, b2, b3, b4, b5, b6, b7; split; reflexivity.
Qed.

Lemma form_encode_occurrences c s :
  Js.form_safe c = false -> c <> "+"%char -> c <> "%"%char ->
  Text.occurrences c (Js.form_encode s) = 0.
Proof.
  intros Hsafe Hplus Hpercent. unfold Text.occurrences.
  induction s as [|a s IH]; [reflexivity|].
  cbn [Js.form_encode].
  destruct (Js.form_safe a) eqn:Ha; [|destruct (N_of_ascii a =? 32)%N].
  - cbn [list_ascii_of_string count_occ].
    destruct (ascii_dec a c) as [->|_]; [congruence | exact IH].
  - cbn [list_ascii_of_string count_occ].
    destruct (ascii_dec "+" c) as [E|_]; [congruence | exact IH].
  - destruct (form_encode_hex_safe a) as [Hhi Hlo].
    cbn [list_ascii_of_string count_occ].
    destruct (ascii_dec "%" c) as [E|_]; [congruence|].
    destruct (ascii_dec _ c) as [E|_]; [congruence|].
    destruct (ascii_dec _ c) as [E|_]; [congruence | exact IH].
Qed.

Lemma occurrences_app c a b :
  Text.occurrences c (a ++ b) = Text.occurrences c a + Text.occurrences c b.
Proof.
  unfold Text.occurrences. induction a as [|x a IH]; [reflexivity|].
  simpl. rewrite IH. now destruct (ascii_dec x c).
Qed.

(** X8.  The path [getStats] requests: [grade] is sent whenever it is not
    [undefined] (so also when it is [null]), [class_name] only for a
    truthy [classId], and with neither the path is exactly [/stats].
    Both values are form-encoded, so the query holds one [=] per
    parameter and an [&] only between the two, whatever the values
    contain. *)
Theorem stats_path_parameters env grade classId :
  let g := Js.form_encode (Js.to_string env grade) in
  let c := Js.form_encode (Js.to_string env classId) in
  Api.stats_path env grade classId =
    match grade, Js.truthy classId with
    | Js.JUndefined, false => "/stats"
    | Js.JUndefined, true => ("/stats?class_name=" ++ c)%string
    | _, false => ("/stats?grade=" ++ g)%string
    | _, true => ("/stats?grade=" ++ g ++ "&class_name=" ++ c)%string
    end /\
  let sent := (match grade with Js.JUndefined => 0 | _ => 1 end)
              + (if Js.truthy classId then 1 else 0) in
  Text.occurrences "=" (Api.stats_query env grade classId) = sent /\
  Text.occurrences "&" (Api.stats_query env grade classId) = sent - 1.
Proof.
  intros g c.
  assert (Heq : forall s, Text.occurrences "=" (Js.form_encode s) = 0).
  { intros s. now apply form_encode_occurrences. }
  assert (Hamp : forall s, Text.occurrences "&" (Js.form_encode s) = 0).
  { intros s. now apply form_encode_occurrences. }
  unfold Api.stats_path, Api.stats_query.
  destruct (Js.truthy classId);
    destruct grade; cbn [app map fst snd String.concat];
    change (Js.form_encode "grade") with "grade";
    change (Js.form_encode "class_name") with "class_name";
    (split; [reflexivity|]);
    cbn [Nat.add Nat.sub];
    rewrite ?occurrences_app, ?Heq, ?Hamp; split; reflexivity.
Qed.

(** X9.  Setting the authorization header stores ['Bearer ' + token]
    under [Authorization] and touches no other header; setting it again
    replaces it; clearing removes it, so that clearing after setting
    leaves the headers as clearing alone does. *)
Theorem auth_header_set_and_cleared env token token' (common : gmap string string) :
  Api.setAuthHeader env token common !! "Authorization"
    = Some ("Bearer " ++ Js.to_string env token)%string /\
  Api.clearAuthHeader (Api.setAuthHeader env token common) !! "Authorization"
    = None /\
  Api.clearAuthHeader (Api.setAuthHeader env token common)
    = Api.clearAuthHeader common /\
  Api.setAuthHeader env token' (Api.setAuthHeader env token common)
    = Api.setAuthHeader env token' common /\
  (forall h, h <> "Authorization" ->
     Api.setAuthHeader env token common !! h = common !! h /\
     Api.clearAuthHeader common !! h = common !! h).
Proof.
  unfold Api.setAuthHeader, Api.clearAuthHeader. repeat split.
  - apply lookup_insert_eq.
  - apply lookup_delete_eq.
  - apply delete_insert_eq.
  - apply insert_insert_eq.
  - now apply lookup_insert_ne.
  - now apply lookup_delete_ne.
Qed.

Lemma auth_header_set_and_cleared_witness :
  let common : gmap string string := {[ "Accept" := "application/json" ]} in
  Api.setAuthHeader Sample.engine (Js.JStr "s3cr3t") common !! "Authorization"
    = Some "Bearer s3cr3t" /\
  Api.setAuthHeader Sample.engine (Js.JStr "s3cr3t") common !! "Accept"
    = Some "application/json".
Proof.
  intros common.
  destruct (auth_header_set_and_cleared Sample.engine (Js.JStr "s3cr3t")
              (Js.JStr "other") common) as (Hset & _ & _ & _ & Hother).
  split; [exact Hset|].
  rewrite (proj1 (Hother "Accept" ltac:(discriminate))). reflexivity.
Defined.

(* ================================================================= *)
(** ** Further facts: the results table                               *)
(* ================================================================= *)

(** X10.  Clicking a header sorts by it, ascending on the first click;
    further clicks on the same header alternate between descending and
    ascending, so three clicks leave the table as one click does; and a
    click on another header starts ascending again. *)
Theorem handleSort_alternates k s :
  let once := ResultsPanel.handleSort k s in
  let twice := ResultsPanel.handleSort k once in
  ResultsPanel.key once = Some k /\
  (ResultsPanel.key s <> Some k -> ResultsPanel.direction once = ResultsPanel.asc) /\
  ResultsPanel.direction twice
    = match ResultsPanel.direction once with
      | ResultsPanel.asc => ResultsPanel.desc
      | ResultsPanel.desc => ResultsPanel.asc
      end /\
  ResultsPanel.handleSort k twice = once /\
  (forall k', k' <> k ->
     ResultsPanel.handleSort k' once
       = {| ResultsPanel.key := Some k'; ResultsPanel.direction := ResultsPanel.asc |}).
Proof.
  intros once twice. subst once twice. unfold ResultsPanel.handleSort.
  cbn [ResultsPanel.key ResultsPanel.direction]. rewrite String.eqb_refl.
  split; [reflexivity|]. split; [|split; [|split]].
  - intros Hother. destruct (ResultsPanel.key s) as [k0|]; [|reflexivity].
    destruct (ResultsPanel.direction s); [|reflexivity].
    destruct (String.eqb_spec k0 k) as [->|_]; [congruence | reflexivity].
  - destruct (ResultsPanel.key s) as [k0|]; [|reflexivity].
    destruct (ResultsPanel.direction s); [|reflexivity].
    now destruct (String.eqb k0 k).
  - destruct (ResultsPanel.key s) as [k0|]; [|reflexivity].
    destruct (ResultsPanel.direction s); [|reflexivity].
    now destruct (String.eqb k0 k).
  - intros k' Hk'. f_equal.
    destruct (String.eqb_spec k k') as [->|_]; [congruence|].
    now destruct (match ResultsPanel.key s with Some _ => _ | None => _ end).
Qed.

Lemma handleSort_alternates_witness :
  ResultsPanel.handleSort "quiz_score" ResultsPanel.initialSort
    = {| ResultsPanel.key := Some "quiz_score";
         ResultsPanel.direction := ResultsPanel.asc |} /\
  ResultsPanel.handleSort "grade"
    (ResultsPanel.handleSort "quiz_score" ResultsPanel.initialSort)
    = {| ResultsPanel.key := Some "grade";
         ResultsPanel.direction := ResultsPanel.asc |}.
Proof.
  destruct (handleSort_alternates "quiz_score" ResultsPanel.initialSort)
    as (_ & _ & _ & _ & Hother).
  split; [reflexivity|]. apply Hother. discriminate.
Defined.

Lemma visibleHeaders_In results hidden h :
  In h (ResultsPanel.visibleHeaders results hidden) <->
  In h (ResultsPanel.headers results) /\ h ∉ hidden.
Proof.
  unfold ResultsPanel.visibleHeaders. rewrite filter_In.
  rewrite negb_true_iff, bool_decide_eq_false. reflexivity.
Qed.

(** X11.  Toggling a column twice restores the hidden set.  After a
    toggle the visible columns are the first row's keys, in their
    original order, without the hidden ones: the toggled column is
    visible exactly when it was hidden before, and every other column
    keeps its visibility. *)
Theorem toggleColumnVisibility_flips_one_column col (hidden : gset string) results :
  ResultsPanel.toggleColumnVisibility col
    (ResultsPanel.toggleColumnVisibility col hidden) = hidden /\
  (forall h,
     In h (ResultsPanel.visibleHeaders results
             (ResultsPanel.toggleColumnVisibility col hidden)) <->
     In h (ResultsPanel.headers results) /\
     (if String.eqb h col then h ∈ hidden else h ∉ hidden)) /\
  ResultsPanel.visibleHeaders results
      (ResultsPanel.toggleColumnVisibility col hidden)
    = List.filter
        (fun h => if String.eqb h col then bool_decide (h ∈ hidden)
                  else negb (bool_decide (h ∈ hidden)))
        (ResultsPanel.headers results).
Proof.
  assert (Hmem : forall h,
    h ∈ ResultsPanel.toggleColumnVisibility col hidden <->
    (if String.eqb h col then h ∉ hidden else h ∈ hidden)).
  { intros h. unfold ResultsPanel.toggleColumnVisibility.
    case_bool_decide as Hcol.
    - rewrite elem_of_difference, elem_of_singleton.
      destruct (String.eqb_spec h col) as [->|Hne]; tauto.
    - rewrite elem_of_union, elem_of_singleton.
      destruct (String.eqb_spec h col) as [->|Hne]; tauto. }
  split; [|split].
  - apply set_eq. intros h.
    unfold ResultsPanel.toggleColumnVisibility at 1.
    case_bool_decide as Hin; rewrite Hmem in Hin;
      destruct (String.eqb_spec col col) as [_|]; try congruence.
    + rewrite elem_of_difference, Hmem, elem_of_singleton.
      destruct (String.eqb_spec h col) as [->|Hne]; [tauto|]. tauto.
    + rewrite elem_of_union, Hmem, elem_of_singleton.
      destruct (String.eqb_spec h col) as [->|Hne].
      * split; [intros _|tauto]. destruct (decide (col ∈ hidden)); tauto.
      * tauto.
  - intros h. rewrite visibleHeaders_In, Hmem.
    destruct (String.eqb h col); [|tauto].
    split; intros [H1 H2]; (split; [exact H1|]).
    + destruct (decide (h ∈ hidden)); tauto.
    + tauto.
  - unfold ResultsPanel.visibleHeaders. apply filter_ext. intros h.
    destruct (String.eqb h col) eqn:E; repeat case_bool_decide;
      try reflexivity;
      match goal with
      | H : _ ∈ ResultsPanel.toggleColumnVisibility _ _ |- _ =>
          rewrite Hmem, E in H
      | H : ¬ (_ ∈ ResultsPanel.toggleColumnVisibility _ _) |- _ =>
          rewrite Hmem, E in H
      end; tauto.
Qed.

Lemma toggleColumnVisibility_flips_one_column_witness :
  In "grade"
    (ResultsPanel.visibleHeaders (Some Sample.three_rows)
       (ResultsPanel.toggleColumnVisibility "grade" {[ "grade" ]})) /\
  ~ In "class"
      (ResultsPanel.visibleHeaders (Some Sample.three_rows)
         (ResultsPanel.toggleColumnVisibility "class" {[ "grade" ]})).
Proof.
  split.
  - apply (proj1 (proj2 (toggleColumnVisibility_flips_one_column "grade"
                           {[ "grade" ]} (Some Sample.three_rows)))).
    split; [cbn; tauto | cbn; now apply elem_of_singleton].
  - intros Hin.
    apply (proj1 (proj2 (toggleColumnVisibility_flips_one_column "class"
                           {[ "grade" ]} (Some Sample.three_rows)))) in Hin.
    destruct Hin as [_ Hin]. cbn in Hin.
    apply elem_of_singleton in Hin. discriminate Hin.
Defined.

Lemma insert_sorted_Permutation {A : Type} (cmp : A -> A -> float) x l :
  Permutation (ResultsPanel.insert_sorted cmp x l) (x :: l).
Proof.
  induction l as [|y l IH]; simpl; [reflexivity|].
  destruct (PrimFloat.ltb 0 (cmp y x)); [reflexivity|].
  rewrite IH. apply perm_swap.
Qed.

Lemma array_sort_Permutation {A : Type} (cmp : A -> A -> float) l :
  Permutation (ResultsPanel.array_sort cmp l) l.
Proof.
  unfold ResultsPanel.array_sort.
  assert (H : forall acc,
    Permutation (fold_left (fun acc x => ResultsPanel.insert_sorted cmp x acc) l acc)
                (acc ++ l)).
  { induction l as [|x l IH]; intros acc; simpl.
    - now rewrite app_nil_r.
    - rewrite IH, insert_sorted_Permutation.
      change (x :: acc) with ([x] ++ acc).
      rewrite (Permutation_app_comm [x] acc), <- app_assoc. reflexivity. }
  apply (H []).
Qed.

(** X12.  Whatever the sort column and direction, the rows shown are a
    rearrangement of the rows received: sorting neither drops nor
    duplicates a row. *)
Theorem sortedResults_is_rearrangement env (rs : list ResultsPanel.row) sortConfig :
  Permutation (ResultsPanel.sortedResults env (Some rs) sortConfig) rs.
Proof.
  unfold ResultsPanel.sortedResults.
  destruct (ResultsPanel.key sortConfig) as [k|]; [|reflexivity].
  destruct rs as [|first rest]; [reflexivity|].
  destruct (String.eqb k ""); [reflexivity|].
  apply array_sort_Permutation.
Qed.





(* ================================================================= *)
(** ** Further facts: the dashboard's dictionaries                    *)
(* ================================================================= *)

Lemma keys_app_new {V : Type} (m : list (string * V)) k v :
  Js.keys (m ++ [(k, v)]) = Js.keys m ++ [k].
Proof. unfold Js.keys. now rewrite map_app. Qed.

Lemma keys_insert_index_congr {V W : Type} n k (v : V) (w : W) :
  forall (m1 : list (string * V)) (m2 : list (string * W)),
    Js.keys m1 = Js.keys m2 ->
    Js.keys (Js.insert_index n k v m1) = Js.keys (Js.insert_index n k w m2).
Proof.
  induction m1 as [|[k1 v1] m1 IH]; intros [|[k2 v2] m2]; simpl;
    try discriminate; [reflexivity|].
  intros [= <- Hrest].
  destruct (Js.array_index k1) as [n1|]; [destruct (n1 <? n)%N|]; simpl;
    f_equal; auto; f_equal; exact Hrest.
Qed.

(** Where a key lands depends on the keys alone, not on the values. *)
Lemma keys_assign_congr {V W : Type} k (v : V) (w : W)
  (m1 : list (string * V)) (m2 : list (string * W)) :
  Js.keys m1 = Js.keys m2 ->
  Js.keys (Js.assign k v m1) = Js.keys (Js.assign k w m2).
Proof.
  intros Hkeys. unfold Js.assign, Js.define.
  assert (Hown : Js.own k m1 = None <-> Js.own k m2 = None).
  { now rewrite !own_None_keys, Hkeys. }
  destruct (Js.own k m1) as [x|] eqn:H1, (Js.own k m2) as [y|] eqn:H2.
  - now rewrite !keys_overwrite.
  - destruct Hown as [_ Hown]. discriminate (Hown eq_refl).
  - destruct Hown as [Hown _]. discriminate (Hown eq_refl).
  - destruct (Js.array_index k) as [n|].
    + now apply keys_insert_index_congr.
    + now rewrite !keys_app_new, Hkeys.
Qed.

Lemma keys_count_score_rows env rs :
  forall m1 m2,
    Js.keys m1 = Js.keys m2 ->
    Js.keys (fold_left (Dashboard.count_row env) rs m1)
    = Js.keys (fold_left (Dashboard.score_row env) rs m2).
Proof.
  induction rs as [|r rs IH]; intros m1 m2 Hkeys; simpl; [exact Hkeys|].
  apply IH. unfold Dashboard.count_row, Dashboard.score_row, Dashboard.store.
  destruct (String.eqb (Dashboard.cls env r) "__proto__"); [exact Hkeys|].
  now apply keys_assign_congr.
Qed.

(** X14.  For every row list the two charts are built over the same
    classes in the same order: entry [i] of the per-class counts and
    entry [i] of the per-class averages name the same class (so a class
    gets the same colour in both), and the "Classes" figure is the number
    of bars. *)
Theorem charts_list_the_same_classes env (results : list Dashboard.row) :
  map Dashboard.name (Dashboard.byClass env results)
    = map Dashboard.avg_name (Dashboard.scores env results) /\
  length (Dashboard.byClass env results) = length (Dashboard.scores env results).
Proof.
  assert (H : map Dashboard.name (Dashboard.byClass env results)
              = map Dashboard.avg_name (Dashboard.scores env results)).
  { rewrite byClass_names, scores_names. now apply keys_count_score_rows. }
  split; [exact H|].
  now rewrite <- (length_map Dashboard.name), H, length_map.
Qed.

Lemma get_prop_own (m : list (string * Js.value)) c v :
  Js.own c m = Some v -> Js.get_prop m c = v.
Proof. unfold Js.get_prop. now intros ->. Qed.

(** What [byClass] holds for class [c] after a run of rows. *)
Lemma own_count_rows env c rs :
  c <> "__proto__" ->
  forall m,
    Js.own c (fold_left (Dashboard.count_row env) rs m) =
    match Mean.members env c rs with
    | [] => Js.own c m
    | ms =>
        Some (Nat.iter (length ms)
                (fun v => Js.plus_one env (Js.or_else v (Js.JNum 0)))
                (Js.get_prop m c))
    end.
Proof.
  intros Hc. induction rs as [|r rs IH]; intros m; simpl; [reflexivity|].
  rewrite IH. clear IH.
  set (bump := fun v => Js.plus_one env (Js.or_else v (Js.JNum 0))).
  assert (Hstep : Js.own c (Dashboard.count_row env m r) =
                  if String.eqb (Dashboard.cls env r) c
                  then Some (bump (Js.get_prop m c))
                  else Js.own c m).
  { unfold Dashboard.count_row. rewrite own_store.
    destruct (String.eqb_spec (Dashboard.cls env r) c) as [E|Hne].
    - rewrite E. destruct (String.eqb_spec c "__proto__"); [contradiction|].
      now rewrite String.eqb_refl.
    - destruct (String.eqb (Dashboard.cls env r) "__proto__"); [reflexivity|].
      destruct (String.eqb_spec c (Dashboard.cls env r)); [congruence | reflexivity]. }
  unfold Mean.members in *. cbn [List.filter].
  destruct (String.eqb (Dashboard.cls env r) c) eqn:Hr.
  - destruct (List.filter _ rs) as [|r' ms]; [exact Hstep|].
    f_equal. rewrite (get_prop_own _ _ _ Hstep).
    cbn [length]. now rewrite <- Nat.iter_succ_r.
  - destruct (List.filter _ rs) as [|r' ms]; [exact Hstep|].
    f_equal. f_equal. unfold Js.get_prop. now rewrite Hstep.
Qed.

Lemma proto_never_own_counts env rs :
  forall m, Js.own "__proto__" m = None ->
    Js.own "__proto__" (fold_left (Dashboard.count_row env) rs m) = None.
Proof.
  induction rs as [|r rs IH]; intros m Hm; simpl; [exact Hm|].
  apply IH. unfold Dashboard.count_row. rewrite own_store.
  destruct (String.eqb (Dashboard.cls env r) "__proto__") eqn:E; [exact Hm|].
  destruct (String.eqb_spec "__proto__" (Dashboard.cls env r)) as [E'|_];
    [|exact Hm].
  rewrite <- E' in E. discriminate.
Qed.

(** X15.  Every entry of the per-class counts belongs to a class with at
    least one member row, and its value is [(v || 0) + 1] applied once per
    member row: the count of a class depends on nothing but the number of
    rows that fall into it, neither on the other rows nor on the order of
    arrival. *)
Theorem byClass_counts_members env (results : list Dashboard.row) e :
  In e (Dashboard.byClass env results) ->
  exists r rest,
    Mean.members env (Dashboard.name e) results = r :: rest /\
    Dashboard.value e = Mean.tally env (Dashboard.name e) (length (r :: rest)).
Proof.
  unfold Dashboard.byClass. intros He.
  apply in_map_iff in He as [[c v] [<- Hin]].
  cbn [Dashboard.name Dashboard.value fst snd].
  assert (Hnd : List.NoDup (Js.keys (fold_left (Dashboard.count_row env) results []))).
  { apply NoDup_fold_store; [|constructor].
    intros m r. unfold Dashboard.count_row. apply NoDup_store. }
  pose proof (In_own_NoDup _ _ _ Hnd Hin) as Hown.
  assert (Hc : c <> "__proto__").
  { intros ->. now rewrite proto_never_own_counts in Hown. }
  rewrite (own_count_rows env c results Hc) in Hown.
  destruct (Mean.members env c results) as [|r ms]; [discriminate|].
  exists r, ms. split; [reflexivity|].
  injection Hown as <-. reflexivity.
Qed.

Lemma byClass_counts_members_witness :
  exists r rest,
    Mean.members Sample.engine "A" Sample.three_rows = r :: rest /\
    Js.JNum 2 = Mean.tally Sample.engine "A" (length (r :: rest)).
Proof.
  exact (byClass_counts_members Sample.engine Sample.three_rows
           {| Dashboard.name := "A"; Dashboard.value := Js.JNum 2 |}
           (or_introl eq_refl)).
Defined.

Lemma Enumerated_nil : Enumeration.Enumerated [].
Proof. apply Enumeration.enumerated_names. constructor. Qed.

Lemma Enumerated_app_name ks k :
  Enumeration.Enumerated ks -> Js.array_index k = None ->
  Enumeration.Enumerated (ks ++ [k]).
Proof.
  intros Hks Hk. induction Hks as [ks Hnames | k0 n ks Hk0 Hle Hks IH].
  - apply Enumeration.enumerated_names. apply List.Forall_app. split; [exact Hnames|].
    constructor; [exact Hk | constructor].
  - simpl. apply (Enumeration.enumerated_index k0 n); [exact Hk0 | | exact IH].
    intros k' n' Hin Hk'. apply in_app_iff in Hin as [Hin | [<- | []]].
    + now apply (Hle k' n').
    + congruence.
Qed.

Lemma Enumerated_insert_index {V : Type} n k (v : V) :
  Js.array_index k = Some n ->
  forall m : list (string * V),
    Enumeration.Enumerated (Js.keys m) ->
    Enumeration.Enumerated (Js.keys (Js.insert_index n k v m)).
Proof.
  intros Hk. induction m as [|[k0 v0] m IH]; simpl; intros Hm.
  - apply (Enumeration.enumerated_index k n); [exact Hk | intros ? ? [] | exact Enumerated_nil].
  - destruct (Js.array_index k0) as [n0|] eqn:Hk0.
    + inversion Hm as [ks Hnames | k1 n1 ks Hk1 Hle Hrest]; subst.
      { apply List.Forall_cons_iff in Hnames as [Hnone _]. congruence. }
      assert (n1 = n0) by congruence. subst n1.
      destruct (n0 <? n)%N eqn:Hlt; simpl.
      * apply (Enumeration.enumerated_index k0 n0); [exact Hk0 | | now apply IH].
        intros k' n' Hin Hk'. apply keys_insert_index in Hin as [-> | Hin].
        -- apply N.ltb_lt in Hlt. assert (n' = n) by congruence. lia.
        -- now apply (Hle k' n').
      * apply (Enumeration.enumerated_index k n); [exact Hk | | exact Hm].
        apply N.ltb_ge in Hlt.
        intros k' n' [<- | Hin] Hk'.
        -- assert (n' = n0) by congruence. lia.
        -- specialize (Hle k' n' Hin Hk'). lia.
    + inversion Hm as [ks Hnames | k1 n1 ks Hk1 Hle Hrest]; subst; [|congruence].
      simpl. apply (Enumeration.enumerated_index k n); [exact Hk | | exact Hm].
      intros k' n' Hin Hk'.
      rewrite List.Forall_forall in Hnames. specialize (Hnames k' Hin). congruence.
Qed.

Lemma Enumerated_store {V : Type} k (v : V) (m : list (string * V)) :
  Enumeration.Enumerated (Js.keys m) ->
  Enumeration.Enumerated (Js.keys (Dashboard.store k v m)).
Proof.
  intros Hm. unfold Dashboard.store.
  destruct (String.eqb k "__proto__"); [exact Hm|].
  unfold Js.assign, Js.define. destruct (Js.own k m).
  - now rewrite keys_overwrite.
  - destruct (Js.array_index k) as [n|] eqn:Hk.
    + now apply Enumerated_insert_index.
    + rewrite keys_app_new. now apply Enumerated_app_name.
Qed.

Lemma names_insert_index {V : Type} n k (v : V) (m : list (string * V)) :
  Js.array_index k = Some n ->
  Enumeration.names (Js.keys (Js.insert_index n k v m))
  = Enumeration.names (Js.keys m).
Proof.
  intros Hk. unfold Enumeration.names.
  induction m as [|[k0 v0] m IH]; simpl.
  - now rewrite Hk.
  - destruct (Js.array_index k0) as [n0|] eqn:Hk0;
      [destruct (n0 <? n)%N|]; simpl; rewrite ?Hk, ?Hk0; try reflexivity.
    exact IH.
Qed.

Lemma names_elem ks k :
  Js.array_index k = None ->
  k ∈ (list_to_set ks : gset string) <->
  k ∈ (list_to_set (Enumeration.names ks) : gset string).
Proof.
  intros Hk. rewrite !elem_of_list_to_set, !list_elem_of_In.
  unfold Enumeration.names. rewrite filter_In, Hk. tauto.
Qed.

Lemma names_store {V : Type} k (v : V) (m : list (string * V)) :
  Enumeration.names (Js.keys (Dashboard.store k v m)) =
  match Js.array_index k with
  | Some _ => Enumeration.names (Js.keys m)
  | None =>
      if String.eqb k "__proto__" then Enumeration.names (Js.keys m)
      else if bool_decide (k ∈ (list_to_set (Enumeration.names (Js.keys m)) : gset string))
           then Enumeration.names (Js.keys m)
           else Enumeration.names (Js.keys m) ++ [k]
  end.
Proof.
  unfold Dashboard.store.
  destruct (Js.array_index k) as [n|] eqn:Hk.
  - destruct (String.eqb k "__proto__"); [reflexivity|].
    unfold Js.assign, Js.define. rewrite Hk. destruct (Js.own k m).
    + now rewrite keys_overwrite.
    + now apply names_insert_index.
  - destruct (String.eqb k "__proto__"); [reflexivity|].
    rewrite (keys_assign_ordinary k v m Hk).
    destruct (bool_decide (k ∈ (list_to_set (Js.keys m) : gset string))) eqn:Hin.
    + apply bool_decide_eq_true in Hin.
      rewrite bool_decide_eq_true_2;
        [reflexivity | exact (proj1 (names_elem _ _ Hk) Hin)].
    + apply bool_decide_eq_false in Hin.
      rewrite bool_decide_eq_false_2
        by (intros H; apply Hin; exact (proj2 (names_elem _ _ Hk) H)).
      unfold Enumeration.names. rewrite List.filter_app. cbn [List.filter].
      now rewrite Hk.
Qed.

Lemma stored_names_cons k ks :
  Enumeration.stored_names (k :: ks) =
  match Js.array_index k with
  | Some _ => Enumeration.stored_names ks
  | None =>
      if String.eqb k "__proto__" then Enumeration.stored_names ks
      else k :: Enumeration.stored_names ks
  end.
Proof.
  unfold Enumeration.stored_names, Enumeration.names. cbn [List.filter].
  destruct (Js.array_index k); [reflexivity|].
  cbn [List.filter]. now destruct (String.eqb k "__proto__").
Qed.

Lemma names_fold_first_seen {V R : Type}
  (step : list (string * V) -> R -> list (string * V)) (key : R -> string) :
  (forall m r, exists v, step m r = Dashboard.store (key r) v m) ->
  forall rs m,
    Enumeration.names (Js.keys (fold_left step rs m)) =
    Enumeration.names (Js.keys m) ++
    Order.first_seen_from (list_to_set (Enumeration.names (Js.keys m)))
      (Enumeration.stored_names (map key rs)).
Proof.
  intros Hstep rs. induction rs as [|r rs IH]; intros m; simpl.
  - now rewrite app_nil_r.
  - rewrite IH. destruct (Hstep m r) as [v ->].
    rewrite names_store, stored_names_cons.
    destruct (Js.array_index (key r)); [reflexivity|].
    destruct (String.eqb (key r) "__proto__"); [reflexivity|].
    cbn [Order.first_seen_from].
    destruct (bool_decide _); [reflexivity|].
    assert (Hset : (list_to_set (Enumeration.names (Js.keys m) ++ [key r]) : gset string)
                   = {[ key r ]} ∪ list_to_set (Enumeration.names (Js.keys m))).
    { rewrite list_to_set_app_L. cbn [list_to_set foldr].
      rewrite (right_id_L ∅ (∪)). apply (comm_L (∪)). }
    now rewrite Hset, <- app_assoc.
Qed.

(** X16.  The order of the groups, for every row list: class keys that
    are array indices come first, in ascending numeric order; the other
    keys follow in the order of their first appearance in the input; and a
    class named ["__proto__"] is never listed.  This holds for the
    per-class counts and for the per-class averages. *)
Theorem groups_follow_enumeration_order env (results : list Dashboard.row) :
  let groups := map Dashboard.name (Dashboard.byClass env results) in
  groups = map Dashboard.avg_name (Dashboard.scores env results) /\
  Enumeration.Enumerated groups /\
  Enumeration.names groups
    = Order.first_seen
        (Enumeration.stored_names (map (Dashboard.cls env) results)) /\
  ~ In "__proto__" groups.
Proof.
  intros groups. subst groups.
  split; [|split; [|split]].
  - rewrite byClass_names, scores_names. now apply keys_count_score_rows.
  - rewrite byClass_names.
    assert (H : forall rs (m : list (string * Js.value)),
      Enumeration.Enumerated (Js.keys m) ->
      Enumeration.Enumerated (Js.keys (fold_left (Dashboard.count_row env) rs m))).
    { induction rs as [|r rs IH]; intros m Hm; simpl; [exact Hm|].
      apply IH. unfold Dashboard.count_row. now apply Enumerated_store. }
    apply H. exact Enumerated_nil.
  - rewrite byClass_names.
    rewrite (names_fold_first_seen (Dashboard.count_row env) (Dashboard.cls env)).
    + reflexivity.
    + intros m r. unfold Dashboard.count_row. eauto.
  - rewrite byClass_names. intros Hin.
    apply own_None_keys in Hin; [exact Hin|].
    now apply proto_never_own_counts.
Qed.

(* ================================================================= *)
(** ** Further facts: the role selector and the store                 *)
(* ================================================================= *)

(** X17.  After a click on a grade button exactly that button is
    highlighted among the grade buttons, and the highlighting of the class
    buttons is as before; likewise for a click on a class button. *)
Theorem clicked_button_is_the_active_one role :
  (forall g, In g RoleSelector.grades ->
     List.filter (RoleSelector.gradeActive (RoleSelector.chooseGrade g role))
       RoleSelector.grades = [g] /\
     forall c, RoleSelector.classActive (RoleSelector.chooseGrade g role) c
               = RoleSelector.classActive role c) /\
  (forall c, In c RoleSelector.classes ->
     List.filter (RoleSelector.classActive (RoleSelector.chooseClass c role))
       RoleSelector.classes = [c] /\
     forall g, RoleSelector.gradeActive (RoleSelector.chooseClass c role) g
               = RoleSelector.gradeActive role g).
Proof.
  split.
  - intros g Hg. split; [|reflexivity].
    unfold RoleSelector.grades in Hg. cbn [In] in Hg.
    destruct Hg as [<-|[<-|[<-|[<-|[]]]]]; reflexivity.
  - intros c Hc. split; [|reflexivity].
    unfold RoleSelector.classes in Hc. cbn [In] in Hc.
    destruct Hc as [<-|[<-|[<-|[<-|[]]]]]; reflexivity.
Qed.

Lemma clicked_button_is_the_active_one_witness :
  List.filter (RoleSelector.gradeActive
                 (RoleSelector.chooseGrade (Js.JNum 9) Sample.teacher))
    RoleSelector.grades = [Js.JNum 9] /\
  List.filter (RoleSelector.classActive
                 (RoleSelector.chooseGrade (Js.JNum 9) Sample.teacher))
    RoleSelector.classes = [Js.JStr "A"].
Proof.
  destruct (proj1 (clicked_button_is_the_active_one Sample.teacher)
              (Js.JNum 9) (or_intror (or_intror (or_intror (or_introl eq_refl)))))
    as [Hgrade _].
  split; [exact Hgrade | reflexivity].
Defined.

(** X18.  The grade and the class are chosen independently: the two
    choices commute, a later choice of the same kind replaces the earlier
    one, and the next query carries exactly the last grade and the last
    class chosen, [null] standing for "all", in which case the scope box
    reads 'All Grades' and 'All Classes'. *)
Theorem selection_reaches_the_request env transport session clock st role g g0 c c0 :
  Js.truthy (Js.JStr (Js.trim env (Chat.input st))) = true ->
  let chosen :=
    RoleSelector.chooseClass c
      (RoleSelector.chooseGrade g
         (RoleSelector.chooseClass c0 (RoleSelector.chooseGrade g0 role))) in
  chosen = RoleSelector.chooseGrade g (RoleSelector.chooseClass c role) /\
  fst (Chat.handleSend env transport chosen session clock st)
    = Some {| Api.query := Chat.input st;
              Api.role := {| Api.grade := g; Api.class_name := c |};
              Api.sessionId := session |} /\
  (g = Js.JNull -> c = Js.JNull ->
   RoleSelector.scopeBadges env chosen = ("All Grades", "All Classes")).
Proof.
  intros Hinput chosen. subst chosen. split; [reflexivity|]. split.
  - unfold Chat.handleSend. now rewrite Hinput.
  - intros -> ->. reflexivity.
Qed.

Lemma selection_reaches_the_request_witness :
  fst (Chat.handleSend Sample.engine (Sample.answers Js.JNull)
         (RoleSelector.chooseClass Js.JNull
            (RoleSelector.chooseGrade (Js.JNum 9)
               (RoleSelector.chooseClass (Js.JStr "B")
                  (RoleSelector.chooseGrade (Js.JNum 7) Sample.teacher))))
         "session-1" Sample.clock (Sample.typing "toppers"))
  = Some {| Api.query := "toppers";
            Api.role := {| Api.grade := Js.JNum 9; Api.class_name := Js.JNull |};
            Api.sessionId := "session-1" |}.
Proof.
  exact (proj1 (proj2 (selection_reaches_the_request Sample.engine
                         (Sample.answers Js.JNull) "session-1" Sample.clock
                         (Sample.typing "toppers") Sample.teacher
                         (Js.JNum 9) (Js.JNum 7) Js.JNull (Js.JStr "B") eq_refl))).
Defined.




(* ================================================================= *)
(** ** Further facts: shape of the table, coverage of the groups      *)
(* ================================================================= *)

(** X20.  The table is rectangular and consistently labelled: every body
    row has one cell per visible column, rows are numbered 1, 2, ... in
    display order, the visible columns are among the columns on offer in
    the same relative order, and the footer's column figures are the
    numbers of visible and of offered columns. *)
Theorem table_is_rectangular env results sortConfig hidden t :
  ResultsPanel.render env results sortConfig hidden = ResultsPanel.ResultsTable t ->
  List.Forall (fun line => length (snd line) = length (ResultsPanel.columns t))
    (ResultsPanel.body t) /\
  map fst (ResultsPanel.body t) = seq 1 (length (ResultsPanel.body t)) /\
  ResultsPanel.columns t
    = List.filter (fun h => negb (bool_decide (h ∈ hidden))) (ResultsPanel.toggles t) /\
  ResultsPanel.visibility t
    = (length (ResultsPanel.columns t), length (ResultsPanel.toggles t)).
Proof.
  unfold ResultsPanel.render.
  destruct results as [[|first rest]|]; try discriminate.
  intros [= <-].
  cbn [ResultsPanel.body ResultsPanel.columns ResultsPanel.toggles
       ResultsPanel.visibility].
  set (rows := ResultsPanel.sortedResults env (Some (first :: rest)) sortConfig).
  destruct (number_rows_spec (Some (first :: rest)) hidden rows 0) as [Hfst Hsnd].
  split; [|split; [|split; reflexivity]].
  - apply List.Forall_forall. intros line Hline.
    apply (in_map snd) in Hline. rewrite Hsnd in Hline.
    apply in_map_iff in Hline as (r & <- & _). apply length_map.
  - rewrite length_number_rows. exact Hfst.
Qed.

Lemma table_is_rectangular_witness :
  exists t,
    ResultsPanel.render Sample.engine (Some Sample.extra_key_later)
      ResultsPanel.initialSort {[ "grade" ]} = ResultsPanel.ResultsTable t /\
    List.Forall (fun line => length (snd line) = 3) (ResultsPanel.body t).
Proof.
  eexists. split; [reflexivity|].
  exact (proj1 (table_is_rectangular Sample.engine (Some Sample.extra_key_later)
                  ResultsPanel.initialSort {[ "grade" ]} _ eq_refl)).
Defined.

(** X21.  No row is left out of the charts: the class of every row, with
    'Unknown' standing in for a missing or falsy class, is one of the
    groups of both charts, the one exception being a class named
    ["__proto__"]. *)
Theorem every_row_is_grouped env (results : list Dashboard.row) r :
  In r results ->
  Dashboard.cls env r <> "__proto__" ->
  In (Dashboard.cls env r) (map Dashboard.name (Dashboard.byClass env results)) /\
  In (Dashboard.cls env r) (map Dashboard.avg_name (Dashboard.scores env results)) /\
  (Js.truthy (Js.get_prop r "class") = false -> Dashboard.cls env r = "Unknown").
Proof.
  intros Hr Hproto.
  assert (Hmember : Mean.members env (Dashboard.cls env r) results <> []).
  { intros Hnone.
    assert (Hin : In r (Mean.members env (Dashboard.cls env r) results)).
    { apply filter_In. split; [exact Hr | apply String.eqb_refl]. }
    rewrite Hnone in Hin. destruct Hin. }
  assert (Hcount : In (Dashboard.cls env r)
                     (map Dashboard.name (Dashboard.byClass env results))).
  { rewrite byClass_names.
    destruct (in_dec string_dec (Dashboard.cls env r)
                (Js.keys (fold_left (Dashboard.count_row env) results [])))
      as [Hin|Hout]; [exact Hin|].
    apply own_None_keys in Hout.
    rewrite (own_count_rows env _ results Hproto) in Hout.
    destruct (Mean.members env (Dashboard.cls env r) results);
      [contradiction | discriminate]. }
  split; [exact Hcount|]. split.
  - rewrite scores_names.
    rewrite <- (keys_count_score_rows env results [] []) by reflexivity.
    now rewrite <- byClass_names.
  - intros Hfalsy. unfold Dashboard.cls, Js.or_else. now rewrite Hfalsy.
Qed.

Lemma every_row_is_grouped_witness :
  In "Unknown"
    (map Dashboard.name
       (Dashboard.byClass Sample.engine
          (Sample.three_rows ++ [[("student_name", Js.JStr "Gopal")]]))).
Proof.
  exact (proj1 (every_row_is_grouped Sample.engine
                  (Sample.three_rows ++ [[("student_name", Js.JStr "Gopal")]])
                  [("student_name", Js.JStr "Gopal")]
                  (or_intror (or_intror (or_intror (or_introl eq_refl))))
                  ltac:(discriminate))).
Defined.
